(** * MPR visualizer: a shallow embedding of [mpr_visualization.py]

    The program is a Tk application that shows the axial, coronal and
    sagittal slices of a DICOM volume.  Its own code is glue between
    SimpleITK (series reading, slicing), numpy/matplotlib (colour maps,
    rendering) and scipy (Gaussian blur).  The embedding keeps the glue
    as it is written and takes the libraries as an interface
    ([Libraries]): every statement below is proved for every
    implementation of that interface, and evaluated on a small
    executable one ([Toy]) where a concrete run is needed. *)

From Stdlib Require Import ZArith String List Lia.
From stdpp Require Import base gmap strings list.

Local Open Scope Z_scope.
Local Open Scope string_scope.

(** ** Python values and control flow *)

(** The exceptions that occur in the program.  All of them derive from
    Python's [Exception], so an [except Exception] clause catches each. *)
Inductive exception : Type :=
| ValueError (msg : string)
| TypeError (msg : string)
| KeyError (key : string)
| AttributeError (msg : string)
| UnboundLocalError (msg : string)
| RuntimeError (msg : string).

(** [str(e)], as interpolated by the f-strings of the error dialogs. *)
Definition str (e : exception) : string :=
  match e with
  | ValueError msg | TypeError msg | AttributeError msg
  | UnboundLocalError msg | RuntimeError msg => msg
  | KeyError key => "'" ++ key ++ "'"
  end.

(** A call either returns a value or raises. *)
Inductive result (A : Type) : Type :=
| Returned (a : A)
| Raised (e : exception).
Arguments Returned {A} a.
Arguments Raised {A} e.

(** Computations over a mutable store [St] that may raise; the store
    keeps the writes made before the exception. *)
Definition Py (St A : Type) : Type := St -> result A * St.

Definition ret {St A} (a : A) : Py St A := fun s => (Returned a, s).

Definition bind {St A B} (m : Py St A) (k : A -> Py St B) : Py St B :=
  fun s => match m s with
           | (Returned a, s') => k a s'
           | (Raised e, s') => (Raised e, s')
           end.

Definition raise {St A} (e : exception) : Py St A := fun s => (Raised e, s).

(** [try: body except Exception as e: handler e] *)
Definition try_except {St A} (body : Py St A) (handler : exception -> Py St A)
  : Py St A :=
  fun s => match body s with
           | (Returned a, s') => (Returned a, s')
           | (Raised e, s') => handler e s'
           end.

(** A library call, which touches no store of the program. *)
Definition call {St A} (r : result A) : Py St A := fun s => (r, s).

Definition modify {St} (f : St -> St) : Py St unit := fun s => (Returned tt, f s).

Declare Scope py_scope.
Delimit Scope py_scope with py.
Notation "x <- m ;; k" := (bind m (fun x => k))
  (at level 100, m at next level, right associativity) : py_scope.
Notation "m ;; k" := (bind m (fun _ => k))
  (at level 100, right associativity) : py_scope.
Local Open Scope py_scope.

(** [for x in xs: body x] *)
Fixpoint for_each {St A} (xs : list A) (body : A -> Py St unit) : Py St unit :=
  match xs with
  | [] => ret tt
  | x :: rest => body x ;; for_each rest body
  end.

(** ** The libraries the program delegates to *)

Class Libraries : Type := {
  (** [sitk.Image] with three dimensions, and its two-dimensional slices *)
  Image : Type;
  Image2 : Type;
  (** a numeric numpy array of one slice, its elements, and an array
      with a trailing channel axis *)
  ndarray : Type;
  scalar : Type;
  rgb_array : Type;
  (** [reader.GetGDCMSeriesFileNames(directory)] *)
  GetGDCMSeriesFileNames : string -> result (list string);
  (** [reader.Execute()] for a reader holding the given file names *)
  Execute : list string -> result Image;
  (** [image.GetSize()], as [(size[0], size[1], size[2])] *)
  GetSize : Image -> Z * Z * Z;
  (** [image[:, :, index]], [image[:, index, :]], [image[index, :, :]] *)
  slice_z : Image -> Z -> result Image2;
  slice_y : Image -> Z -> result Image2;
  slice_x : Image -> Z -> result Image2;
  (** [sitk.GetArrayFromImage] *)
  GetArrayFromImage : Image2 -> result ndarray;
  (** [a.astype(np.float32)] *)
  astype_float32 : ndarray -> ndarray;
  (** [np.max(a)], [x > 0] and [a / x] *)
  np_max : ndarray -> scalar;
  gt_zero : scalar -> bool;
  divide : ndarray -> scalar -> ndarray;
  (** [plt.cm.get_cmap(name)(a)], an RGBA array, and [c[:, :, :3]] *)
  get_cmap : string -> ndarray -> rgb_array;
  first3 : rgb_array -> rgb_array;
  (** the scaling to [0, 1] that [imshow] applies to scalar data *)
  normalize : ndarray -> ndarray;
  (** [gaussian_filter(a, sigma=sigma)] *)
  gaussian_filter : ndarray -> Z -> ndarray;
  (** the interpreter's text for reading a local before it is bound *)
  unbound_local : string -> string
}.

(** The file reader object: [SetFileNames] stores, [Execute] reads. *)
Record ImageSeriesReader : Type := { file_names : list string }.

Definition SetFileNames (_ : ImageSeriesReader) (names : list string)
  : ImageSeriesReader := {| file_names := names |}.

Section Program.

Context {L : Libraries}.

(** What [slice_image] holds in [display_slice]: a numeric slice, or the
    RGB array that [apply_color_map] produced. *)
Inductive pixels : Type :=
| Gray (a : ndarray)
| RGB (c : rgb_array).

(** What the program does to the screen, in order. *)
Inductive gui_event : Type :=
| showerror (title message : string)
| showinfo (title message : string)
| showwarning (title message : string)
| figure_clear (canvas : string)
| imshow (canvas : string) (img : pixels) (cmap : string)
| axis_off (canvas : string)
| draw (canvas : string)
| delete_all (canvas : string)
(** [create_image] of the thumbnail made from [source]:
    [Image.fromarray(source)] resized to 300 by 300 *)
| create_image (canvas : string) (source : ndarray).

Definition IO (A : Type) : Type := Py (list gui_event) A.

Definition emit (ev : gui_event) : IO unit :=
  modify (fun log => (log ++ [ev])%list).

(** ** Module-level functions *)

Definition load_dicom_series (directory : string) : IO (option Image) :=
  try_except
    (let reader := {| file_names := [] |} in
     dicom_names <- call (GetGDCMSeriesFileNames directory) ;;
     match dicom_names with
     | [] => raise (ValueError "No DICOM files found in the selected directory.")
     | _ :: _ =>
         let reader := SetFileNames reader dicom_names in
         image <- call (Execute (file_names reader)) ;;
         ret (Some image)
     end)
    (fun e =>
       emit (showerror "Error" ("Failed to load DICOM series: " ++ str e)) ;;
       ret None).

(** Subscripting [image], which is [None] until a series is loaded. *)
Definition subscript (image : option Image)
    (slicer : Image -> Z -> result Image2) (index : Z) : IO Image2 :=
  match image with
  | Some img => call (slicer img index)
  | None => raise (TypeError "'NoneType' object is not subscriptable")
  end.

(** Reading the local [slice_image]: bound or not. *)
Definition read_local {A} (name : string) (v : option A) : IO A :=
  match v with
  | Some a => ret a
  | None => raise (UnboundLocalError (unbound_local name))
  end.

Definition extract_slice (image : option Image) (plane : string) (index : Z)
  : IO (option ndarray) :=
  try_except
    (slice_image <-
       (if String.eqb plane "axial" then
          s <- subscript image slice_z index ;; ret (Some s)
        else if String.eqb plane "coronal" then
          s <- subscript image slice_y index ;; ret (Some s)
        else if String.eqb plane "sagittal" then
          s <- subscript image slice_x index ;; ret (Some s)
        else ret None) ;;
     s <- read_local "slice_image" slice_image ;;
     a <- call (GetArrayFromImage s) ;;
     ret (Some a))
    (fun e =>
       emit (showerror "Error" ("Failed to extract slice: " ++ str e)) ;;
       ret None).

Definition apply_color_map (image : ndarray) (color_map : string) : pixels :=
  if gt_zero (np_max image)
  then RGB (first3 (get_cmap color_map (divide image (np_max image))))
  else Gray image.

Definition apply_filter (image : ndarray) (filter_type : string) : ndarray :=
  if String.eqb filter_type "Gaussian" then gaussian_filter image 1 else image.

Definition display_slice (canvas : string) (image : option Image)
    (plane : string) (index : Z) (color_map : string) : IO unit :=
  slice_image <- extract_slice image plane index ;;
  match slice_image with
  | None => ret tt
  | Some slice_image =>
      let slice_image := astype_float32 slice_image in
      let slice_image :=
        if negb (String.eqb color_map "gray")
        then apply_color_map slice_image color_map
        else Gray slice_image in
      emit (figure_clear canvas) ;;
      emit (imshow canvas slice_image color_map) ;;
      emit (axis_off canvas) ;;
      emit (draw canvas)
  end.

(** ** The application object *)

(** A [tk.Scale]: the bounds of its range. *)
Record Scale : Type := { from_ : Z; to : Z }.

Definition config_to (w : Scale) (v : Z) : Scale :=
  {| from_ := from_ w; to := v |}.

Record MPRApp : Type := {
  image : option Image;
  current_indices : gmap string Z;
  max_indices : gmap string Z;
  color_map_var : string;
  filter_var : string;
  axial_scroll : Scale;
  coronal_scroll : Scale;
  sagittal_scroll : Scale
}.

Definition set_image (v : option Image) (a : MPRApp) : MPRApp :=
  {| image := v; current_indices := current_indices a;
     max_indices := max_indices a; color_map_var := color_map_var a;
     filter_var := filter_var a; axial_scroll := axial_scroll a;
     coronal_scroll := coronal_scroll a; sagittal_scroll := sagittal_scroll a |}.

Definition set_current_indices (d : gmap string Z) (a : MPRApp) : MPRApp :=
  {| image := image a; current_indices := d;
     max_indices := max_indices a; color_map_var := color_map_var a;
     filter_var := filter_var a; axial_scroll := axial_scroll a;
     coronal_scroll := coronal_scroll a; sagittal_scroll := sagittal_scroll a |}.

Definition set_max_indices (d : gmap string Z) (a : MPRApp) : MPRApp :=
  {| image := image a; current_indices := current_indices a;
     max_indices := d; color_map_var := color_map_var a;
     filter_var := filter_var a; axial_scroll := axial_scroll a;
     coronal_scroll := coronal_scroll a; sagittal_scroll := sagittal_scroll a |}.

Definition set_color_map_var (v : string) (a : MPRApp) : MPRApp :=
  {| image := image a; current_indices := current_indices a;
     max_indices := max_indices a; color_map_var := v;
     filter_var := filter_var a; axial_scroll := axial_scroll a;
     coronal_scroll := coronal_scroll a; sagittal_scroll := sagittal_scroll a |}.

Definition set_filter_var (v : string) (a : MPRApp) : MPRApp :=
  {| image := image a; current_indices := current_indices a;
     max_indices := max_indices a; color_map_var := color_map_var a;
     filter_var := v; axial_scroll := axial_scroll a;
     coronal_scroll := coronal_scroll a; sagittal_scroll := sagittal_scroll a |}.

Definition set_scrolls (ax co sa : Scale) (a : MPRApp) : MPRApp :=
  {| image := image a; current_indices := current_indices a;
     max_indices := max_indices a; color_map_var := color_map_var a;
     filter_var := filter_var a; axial_scroll := ax;
     coronal_scroll := co; sagittal_scroll := sa |}.

(** The store of a method: the object and the screen. *)
Definition Method (A : Type) : Type := Py (MPRApp * list gui_event) A.

Definition gui {A} (io : IO A) : Method A :=
  fun s => let (r, log) := io (snd s) in (r, (fst s, log)).

Definition self : Method MPRApp := fun s => (Returned (fst s), s).

Definition update (f : MPRApp -> MPRApp) : Method unit :=
  modify (fun s => (f (fst s), snd s)).

(** [d[key]] *)
Definition getitem {St} (d : gmap string Z) (key : string) : Py St Z :=
  match d !! key with
  | Some v => ret v
  | None => raise (KeyError key)
  end.

(** The canvases that [create_widgets] stores as attributes. *)
Definition canvases : list string :=
  ["axial_canvas"; "coronal_canvas"; "sagittal_canvas";
   "axial_snapshot_canvas"; "coronal_snapshot_canvas";
   "sagittal_snapshot_canvas"].

(** [getattr(self, name)] for a name ending in [_canvas] *)
Definition getattr_canvas {St} (name : string) : Py St string :=
  if existsb (String.eqb name) canvases then ret name
  else raise (AttributeError
                ("'MPRApp' object has no attribute '" ++ name ++ "'")).

Definition planes : list string := ["axial"; "coronal"; "sagittal"].

(** [create_scrollbar]: [tk.Scale(parent_frame, from_=0, to=0, ...)] *)
Definition create_scrollbar : Scale := {| from_ := 0; to := 0 |}.

(** [__init__], with the widgets of [create_widgets] that carry state *)
Definition init : MPRApp :=
  {| image := None;
     current_indices :=
       <["sagittal" := 0]> (<["coronal" := 0]> (<["axial" := 0]> ∅));
     max_indices :=
       <["sagittal" := 0]> (<["coronal" := 0]> (<["axial" := 0]> ∅));
     color_map_var := "gray";
     filter_var := "None";
     axial_scroll := create_scrollbar;
     coronal_scroll := create_scrollbar;
     sagittal_scroll := create_scrollbar |}.

Definition update_all_views : Method unit :=
  for_each planes (fun plane =>
    canvas <- getattr_canvas (plane ++ "_canvas") ;;
    app <- self ;;
    index <- getitem (current_indices app) plane ;;
    gui (display_slice canvas (image app) plane index (color_map_var app))).

(** [load_dicom]; [dicom_dir] is the answer of the directory dialog
    (the empty string when the user cancels). *)
Definition load_dicom (dicom_dir : string) : Method unit :=
  if negb (String.eqb dicom_dir "") then
    loaded <- gui (load_dicom_series dicom_dir) ;;
    update (set_image loaded) ;;
    match loaded with
    | Some img =>
        let '(size0, size1, size2) := GetSize img in
        update (set_max_indices
                  (<["sagittal" := size0 - 1]>
                     (<["coronal" := size1 - 1]>
                        (<["axial" := size2 - 1]> ∅)))) ;;
        for_each planes (fun plane =>
          app <- self ;;
          m <- getitem (max_indices app) plane ;;
          update (set_current_indices
                    (<[plane := m / 2]> (current_indices app)))) ;;
        app <- self ;;
        ax <- getitem (max_indices app) "axial" ;;
        update (fun a => set_scrolls (config_to (axial_scroll a) ax)
                           (coronal_scroll a) (sagittal_scroll a) a) ;;
        app <- self ;;
        co <- getitem (max_indices app) "coronal" ;;
        update (fun a => set_scrolls (axial_scroll a)
                           (config_to (coronal_scroll a) co)
                           (sagittal_scroll a) a) ;;
        app <- self ;;
        sa <- getitem (max_indices app) "sagittal" ;;
        update (fun a => set_scrolls (axial_scroll a) (coronal_scroll a)
                           (config_to (sagittal_scroll a) sa) a) ;;
        update_all_views ;;
        gui (emit (showinfo "Loaded" "DICOM series loaded successfully!"))
    | None =>
        gui (emit (showwarning "Error" "Failed to load the DICOM series."))
    end
  else
    gui (emit (showwarning "Error" "Please select a valid directory.")).

Definition on_scroll (plane : string) (index : Z) : Method unit :=
  update (fun a => set_current_indices
                     (<[plane := index]> (current_indices a)) a) ;;
  update_all_views.

Definition update_filter : Method unit := update_all_views.

Definition update_color_map : Method unit := update_all_views.

Definition capture_snapshot (plane : string) : Method unit :=
  app <- self ;;
  index <- getitem (current_indices app) plane ;;
  snapshot_image <- gui (extract_slice (image app) plane index) ;;
  match snapshot_image with
  | Some snapshot_image =>
      app <- self ;;
      let filter_type := filter_var app in
      let snapshot_image :=
        if negb (String.eqb filter_type "None")
        then apply_filter snapshot_image filter_type
        else snapshot_image in
      snapshot_canvas <- getattr_canvas (plane ++ "_snapshot_canvas") ;;
      gui (emit (delete_all snapshot_canvas)) ;;
      gui (emit (create_image snapshot_canvas snapshot_image))
  | None => ret tt
  end.

Definition change_slice (direction : Z) : Method unit :=
  for_each planes (fun plane =>
    app <- self ;;
    i <- getitem (current_indices app) plane ;;
    update (fun a => set_current_indices
                       (<[plane := i + direction]> (current_indices a)) a) ;;
    app <- self ;;
    i <- getitem (current_indices app) plane ;;
    if (i <? 0)%Z then
      update (fun a => set_current_indices
                         (<[plane := 0]> (current_indices a)) a)
    else
      app <- self ;;
      i <- getitem (current_indices app) plane ;;
      m <- getitem (max_indices app) plane ;;
      if (i >? m)%Z then
        app <- self ;;
        m <- getitem (max_indices app) plane ;;
        update (fun a => set_current_indices
                           (<[plane := m]> (current_indices a)) a)
      else ret tt) ;;
  update_all_views.

(** The bindings of [create_widgets]: [<Left>] and [<Right>]. *)
Definition on_key (keysym : string) : Method unit :=
  if String.eqb keysym "Left" then change_slice (-1)
  else if String.eqb keysym "Right" then change_slice 1
  else ret tt.

(** Choosing an entry of an [OptionMenu] stores it in the variable and
    then runs the menu's command. *)
Definition choose_color_map (value : string) : Method unit :=
  update (set_color_map_var value) ;; update_color_map.

Definition choose_filter (value : string) : Method unit :=
  update (set_filter_var value) ;; update_filter.

(** What the user can do with the widgets of [create_widgets], and the
    callback that each action runs. *)
Inductive user_action : Type :=
| press_load (answer : string)
| choose_map (value : string)
| choose_denoise (value : string)
| press_capture (plane : string)
| move_slider (plane : string) (val : Z)
| press_key (keysym : string).

Definition callback (action : user_action) : Method unit :=
  match action with
  | press_load answer => load_dicom answer
  | choose_map value => choose_color_map value
  | choose_denoise value => choose_filter value
  | press_capture plane => capture_snapshot plane
  | move_slider plane val => on_scroll plane val
  | press_key keysym => on_key keysym
  end.

End Program.

(** ** Vocabulary of the statements *)

Section Vocabulary.

Context {L : Libraries}.

(** The library subscript that [extract_slice] performs for a plane. *)
Definition indexing (plane : string) : option (Image -> Z -> result Image2) :=
  if String.eqb plane "axial" then Some slice_z
  else if String.eqb plane "coronal" then Some slice_y
  else if String.eqb plane "sagittal" then Some slice_x
  else None.

(** The outcome of an [except] clause: the dialog, then [None]. *)
Definition reported {A} (what : string) (e : exception)
    (log : list gui_event) : result (option A) * list gui_event :=
  (Returned None, (log ++ [showerror "Error" (what ++ str e)])%list).

(** What [ax.imshow(X, cmap=name)] paints, after matplotlib's
    documentation: scalar data is normalized and mapped through the
    colour map; RGB data is painted as it is and [cmap] is ignored. *)
Definition painted (img : pixels) (cmap : string) : rgb_array :=
  match img with
  | Gray a => get_cmap cmap (normalize a)
  | RGB c => c
  end.

Definition clamp (x lo hi : Z) : Z := Z.max lo (Z.min x hi).

(** The two tests that [change_slice] makes on a moved index [x]. *)
Definition bounded (x m : Z) : Z :=
  if (x <? 0)%Z then 0%Z else if (x >? m)%Z then m else x.

(** The slice index of [plane] lies within [0, max index]. *)
Definition index_in_range (app : MPRApp) (plane : string) : Prop :=
  exists i m,
    current_indices app !! plane = Some i /\
    max_indices app !! plane = Some m /\
    (0 <= i <= m)%Z.

Definition indices_in_range (app : MPRApp) : Prop :=
  forall plane, In plane planes -> index_in_range app plane.

(** Both dictionaries have an entry for each plane. *)
Definition has_planes (app : MPRApp) : Prop :=
  forall plane, In plane planes ->
    is_Some (current_indices app !! plane) /\
    is_Some (max_indices app !! plane).

(** The screen after [update_all_views] has drawn the view of [plane]. *)
Definition view_log (app : MPRApp) (plane : string)
    (log : list gui_event) : list gui_event :=
  match current_indices app !! plane with
  | Some index =>
      snd (display_slice (plane ++ "_canvas") (image app) plane index
             (color_map_var app) log)
  | None => log
  end.

(** The sliders as [create_scrollbar] made them: ranges start at 0. *)
Definition scrolls_from_zero (app : MPRApp) : Prop :=
  from_ (axial_scroll app) = 0%Z /\
  from_ (coronal_scroll app) = 0%Z /\
  from_ (sagittal_scroll app) = 0%Z.

(** The slider that [create_widgets] made for a plane. *)
Definition scroll_of (app : MPRApp) (plane : string) : option Scale :=
  if String.eqb plane "axial" then Some (axial_scroll app)
  else if String.eqb plane "coronal" then Some (coronal_scroll app)
  else if String.eqb plane "sagittal" then Some (sagittal_scroll app)
  else None.

(** The index of [plane] is within range and its slider spans the range. *)
Definition plane_consistent (app : MPRApp) (plane : string) : Prop :=
  exists i m w,
    current_indices app !! plane = Some i /\
    max_indices app !! plane = Some m /\
    (0 <= i <= m)%Z /\
    scroll_of app plane = Some w /\ from_ w = 0%Z /\ to w = m.

Definition consistent (app : MPRApp) : Prop :=
  plane_consistent app "axial" /\ plane_consistent app "coronal" /\
  plane_consistent app "sagittal".

(** What the widgets of [create_widgets] can deliver: a menu one of its
    entries, a capture button its plane, a slider a value of its range,
    the keyboard one of the two bound keys; the directory dialog any
    answer. *)
Definition deliverable (app : MPRApp) (action : user_action) : Prop :=
  match action with
  | press_load _ => True
  | choose_map value => In value ["gray"; "jet"; "hot"]
  | choose_denoise value => In value ["None"; "Gaussian"]
  | press_capture plane => In plane planes
  | move_slider plane val =>
      exists w, scroll_of app plane = Some w /\ (from_ w <= val <= to w)%Z
  | press_key keysym => In keysym ["Left"; "Right"]
  end.


(** [ok] holds of each element of [xs] in the state that [step] has
    reached from [s] through the earlier elements. *)
Fixpoint all_along {S A : Type} (step : A -> S -> S) (ok : S -> A -> Prop)
    (s : S) (xs : list A) : Prop :=
  match xs with
  | [] => True
  | x :: rest => ok s x /\ all_along step ok (step x s) rest
  end.

(** A session: each action can be delivered by the widgets in the state
    that the callbacks of the earlier actions have left. *)
Definition deliverable_all (s : MPRApp * list gui_event)
    (actions : list user_action) : Prop :=
  all_along (fun action s => snd (callback action s))
            (fun s action => deliverable (fst s) action) s actions.

(** The object and the screen after a session: the main loop runs the
    callback of each action in turn, on what the one before has left. *)
Definition after (s : MPRApp * list gui_event) (actions : list user_action)
  : MPRApp * list gui_event :=
  fold_left (fun s action => snd (callback action s)) actions s.

(** The exception that makes [load_dicom_series] fail for a directory,
    if one does. *)
Definition load_failure (directory : string) : option exception :=
  match GetGDCMSeriesFileNames directory with
  | Raised e => Some e
  | Returned [] =>
      Some (ValueError "No DICOM files found in the selected directory.")
  | Returned (n :: ns) =>
      match Execute (n :: ns) with
      | Raised e => Some e
      | Returned _ => None
      end
  end.

(** The dialog of [extract_slice] while [self.image] is [None]. *)
Definition no_volume_dialog : gui_event :=
  showerror "Error"
    "Failed to extract slice: 'NoneType' object is not subscriptable".

(** The four calls by which [display_slice] renews a canvas. *)
Definition drawn (canvas : string) (img : pixels) (cmap : string)
  : list gui_event :=
  [figure_clear canvas; imshow canvas img cmap; axis_off canvas; draw canvas].

(** What [display_slice] hands to [imshow] for an extracted slice. *)
Definition shaded (raw : ndarray) (color_map : string) : pixels :=
  if negb (String.eqb color_map "gray")
  then apply_color_map (astype_float32 raw) color_map
  else Gray (astype_float32 raw).

(** The array of one slice: the subscript, then [GetArrayFromImage]. *)
Definition array_of (slicer : Image -> Z -> result Image2) (img : Image)
    (k : Z) : result ndarray :=
  match slicer img k with
  | Returned s => GetArrayFromImage s
  | Raised e => Raised e
  end.

(** The libraries serve every index below the size of [img], along each
    axis. *)
Definition serves (img : Image) : Prop :=
  let '(sx, sy, sz) := GetSize img in
  (forall k, (0 <= k < sz)%Z -> exists a, array_of slice_z img k = Returned a) /\
  (forall k, (0 <= k < sy)%Z -> exists a, array_of slice_y img k = Returned a) /\
  (forall k, (0 <= k < sx)%Z -> exists a, array_of slice_x img k = Returned a).

(** A volume is loaded, and the bounds are those of its size. *)
Definition showing (img : Image) (app : MPRApp) : Prop :=
  image app = Some img /\
  let '(sx, sy, sz) := GetSize img in
  max_indices app !! "axial" = Some (sz - 1)%Z /\
  max_indices app !! "coronal" = Some (sy - 1)%Z /\
  max_indices app !! "sagittal" = Some (sx - 1)%Z.

Definition is_error (ev : gui_event) : bool :=
  match ev with
  | showerror _ _ => true
  | _ => false
  end.

(** No error dialog among the events. *)
Definition quiet (events : list gui_event) : Prop :=
  forallb (fun ev => negb (is_error ev)) events = true.

(** The actions other than a press of the load button. *)
Definition navigating (action : user_action) : Prop :=
  match action with
  | press_load _ => False
  | _ => True
  end.

(** The outcome of a method with [g] applied to the object it leaves. *)
Definition on_object {A} (g : MPRApp -> MPRApp)
    (r : result A * (MPRApp * list gui_event))
  : result A * (MPRApp * list gui_event) :=
  (fst r, (g (fst (snd r)), snd (snd r))).

End Vocabulary.

(** ** An executable stand-in for the libraries

    Volumes are nested lists indexed [z][y][x] with integer voxels, the
    colour map is a three-point ramp and the blur a 1-2-1 kernel along
    the rows.  It serves to run the program on concrete inputs; nothing
    is proved about the real libraries through it. *)
Module Toy.

Definition volume : Type := list (list (list Z)).

Definition nth_checked {A} (l : list A) (index : Z) : result A :=
  if (index <? 0)%Z then Raised (RuntimeError "index out of bounds")
  else match nth_error l (Z.to_nat index) with
       | Some a => Returned a
       | None => Raised (RuntimeError "index out of bounds")
       end.

Definition size (v : volume) : Z * Z * Z :=
  (Z.of_nat (length (hd [] (hd [] v))),
   Z.of_nat (length (hd [] v)),
   Z.of_nat (length v)).

Fixpoint collect {A} (rs : list (result A)) : result (list A) :=
  match rs with
  | [] => Returned []
  | Returned a :: rest =>
      match collect rest with
      | Returned l => Returned (a :: l)
      | Raised e => Raised e
      end
  | Raised e :: _ => Raised e
  end.

Definition along_z (v : volume) (k : Z) : result (list (list Z)) :=
  nth_checked v k.

Definition along_y (v : volume) (k : Z) : result (list (list Z)) :=
  collect (map (fun plane => nth_checked plane k) v).

Definition along_x (v : volume) (k : Z) : result (list (list Z)) :=
  collect (map (fun plane => collect (map (fun row => nth_checked row k) plane)) v).

Definition maximum (a : list (list Z)) : Z :=
  let cells := concat a in fold_right Z.max (hd 0%Z cells) cells.

(** values scaled to 0..255 *)
Definition scale (a : list (list Z)) (x : Z) : list (list Z) :=
  map (map (fun v => (v * 255 / x)%Z)) a.

Definition ramp (name : string) (v : Z) : list Z :=
  if String.eqb name "hot" then [Z.min 255 (3 * v); v; (v / 3)%Z; 255%Z]
  else [v; (255 - v)%Z; (v / 2)%Z; 255%Z].

Definition blur_row (row : list Z) : list Z :=
  let left := hd 0%Z row :: row in
  let right := (tl row ++ [List.last row 0%Z])%list in
  map (fun t => let '(l, c, r) := t in ((l + 2 * c + r) / 4)%Z)
      (combine (combine left row) right).

Definition series : list string := ["/data/ct/1.dcm"; "/data/ct/2.dcm"].

(** two slices of two rows of three voxels: size (3, 2, 2) *)
Definition ct : volume :=
  [ [ [0; 100; 200]; [40; 80; 120] ];
    [ [10; 20; 30]; [0; 0; 60] ] ]%Z.

Definition lib : Libraries := {|
  Image := volume;
  Image2 := list (list Z);
  ndarray := list (list Z);
  scalar := Z;
  rgb_array := list (list (list Z));
  GetGDCMSeriesFileNames directory :=
    if String.eqb directory "/data/ct" then Returned series
    else if String.eqb directory "/data/broken" then Returned ["/data/broken/1.dcm"]
    else if String.eqb directory "/nonexistent"
    then Raised (RuntimeError "Exception thrown in SimpleITK ImageSeriesReader_GetGDCMSeriesFileNames")
    else Returned [];
  Execute names :=
    if decide (names = series) then Returned ct
    else Raised (RuntimeError "Exception thrown in SimpleITK ImageSeriesReader_Execute");
  GetSize := size;
  slice_z := along_z;
  slice_y := along_y;
  slice_x := along_x;
  GetArrayFromImage s := Returned s;
  astype_float32 a := a;
  np_max := maximum;
  gt_zero x := (0 <? x)%Z;
  divide := scale;
  get_cmap name a := map (map (ramp name)) a;
  first3 c := map (map (firstn 3)) c;
  normalize a := scale a (maximum a);
  gaussian_filter a _ := map blur_row a;
  unbound_local name :=
    "local variable '" ++ name ++ "' referenced before assignment"
|}.

(** the object after the series in "/data/ct" has been loaded *)
Definition loaded : @MPRApp lib :=
  fst (snd (@load_dicom lib "/data/ct" (@init lib, []))).

End Toy.

(** ** Facts about the module-level functions *)

Section Functions.

Context {L : Libraries}.

Ltac run :=
  unfold emit; unfold bind, ret, raise, call, try_except, modify; simpl.

Lemma load_dicom_series_run directory log :
  load_dicom_series directory log =
  match GetGDCMSeriesFileNames directory with
  | Raised e => reported "Failed to load DICOM series: " e log
  | Returned [] =>
      reported "Failed to load DICOM series: "
        (ValueError "No DICOM files found in the selected directory.") log
  | Returned (n :: ns) =>
      match Execute (n :: ns) with
      | Raised e => reported "Failed to load DICOM series: " e log
      | Returned img => (Returned (Some img), log)
      end
  end.
Proof.
  unfold load_dicom_series, reported. run.
  destruct (GetGDCMSeriesFileNames directory) as [[|n ns]|e]; simpl; try reflexivity.
  destruct (Execute (n :: ns)); reflexivity.
Qed.

Lemma extract_slice_run image plane index log :
  extract_slice image plane index log =
  match indexing plane with
  | None =>
      reported "Failed to extract slice: "
        (UnboundLocalError (unbound_local "slice_image")) log
  | Some slicer =>
      match image with
      | None =>
          reported "Failed to extract slice: "
            (TypeError "'NoneType' object is not subscriptable") log
      | Some img =>
          match slicer img index with
          | Raised e => reported "Failed to extract slice: " e log
          | Returned s =>
              match GetArrayFromImage s with
              | Raised e => reported "Failed to extract slice: " e log
              | Returned a => (Returned (Some a), log)
              end
          end
      end
  end.
Proof.
  unfold extract_slice, indexing, reported, subscript, read_local. run.
  destruct (String.eqb plane "axial");
    [| destruct (String.eqb plane "coronal");
       [| destruct (String.eqb plane "sagittal") ] ];
    try (destruct image as [img|]; simpl; [| reflexivity];
         match goal with
         | |- context [?f img index] => destruct (f img index) as [s|e]
         end; simpl; [| reflexivity];
         destruct (GetArrayFromImage s); reflexivity).
  reflexivity.
Qed.

Lemma extract_slice_returns image plane index log :
  exists r log', extract_slice image plane index log = (Returned r, log').
Proof.
  rewrite extract_slice_run. unfold reported.
  destruct (indexing plane) as [slicer|]; [| eauto].
  destruct image as [img|]; [| eauto].
  destruct (slicer img index) as [s|e]; [| eauto].
  destruct (GetArrayFromImage s); eauto.
Qed.

Lemma indexing_planes plane :
  is_Some (indexing plane) ->
  plane = "axial" \/ plane = "coronal" \/ plane = "sagittal".
Proof.
  unfold indexing.
  destruct (String.eqb_spec plane "axial"); [auto |].
  destruct (String.eqb_spec plane "coronal"); [auto |].
  destruct (String.eqb_spec plane "sagittal"); [auto |].
  intros [? ?]. discriminate.
Qed.

Lemma extract_slice_some image plane index log a log' :
  extract_slice image plane index log = (Returned (Some a), log') ->
  log' = log /\ (plane = "axial" \/ plane = "coronal" \/ plane = "sagittal").
Proof.
  rewrite extract_slice_run. unfold reported. intros H.
  destruct (indexing plane) as [slicer|] eqn:Hp; [| discriminate].
  split; [| apply indexing_planes; rewrite Hp; eauto].
  destruct image as [img|]; [| discriminate].
  destruct (slicer img index) as [s|e]; [| discriminate].
  destruct (GetArrayFromImage s); [| discriminate].
  congruence.
Qed.

Lemma display_slice_returns canvas image plane index color_map log :
  exists log',
    display_slice canvas image plane index color_map log = (Returned tt, log').
Proof.
  unfold display_slice.
  destruct (extract_slice_returns image plane index log) as (r & log1 & Hr).
  run. rewrite Hr. destruct r; simpl; eauto.
Qed.

(** C6: every failure of a library call in [load_dicom_series] (also the
    empty list of file names) and in [extract_slice] is caught where it
    happens: the function shows one error dialog and returns [None], it
    never raises, and [load_dicom_series] returns a volume exactly when
    both library calls succeed on a non-empty series. *)
Theorem library_failures_are_reported directory image plane index log :
  (exists r log', load_dicom_series directory log = (Returned r, log')) /\
  (forall e, GetGDCMSeriesFileNames directory = Raised e ->
     load_dicom_series directory log =
     reported "Failed to load DICOM series: " e log) /\
  (GetGDCMSeriesFileNames directory = Returned [] ->
     load_dicom_series directory log =
     reported "Failed to load DICOM series: "
       (ValueError "No DICOM files found in the selected directory.") log) /\
  (forall names e,
     GetGDCMSeriesFileNames directory = Returned names -> names <> [] ->
     Execute names = Raised e ->
     load_dicom_series directory log =
     reported "Failed to load DICOM series: " e log) /\
  (forall img log',
     load_dicom_series directory log = (Returned (Some img), log') <->
     log' = log /\
     exists names,
       GetGDCMSeriesFileNames directory = Returned names /\ names <> [] /\
       Execute names = Returned img) /\
  (exists r log', extract_slice image plane index log = (Returned r, log')) /\
  (forall slicer img e,
     indexing plane = Some slicer -> image = Some img ->
     slicer img index = Raised e ->
     extract_slice image plane index log =
     reported "Failed to extract slice: " e log) /\
  (forall slicer img s e,
     indexing plane = Some slicer -> image = Some img ->
     slicer img index = Returned s -> GetArrayFromImage s = Raised e ->
     extract_slice image plane index log =
     reported "Failed to extract slice: " e log).
Proof.
  repeat split.
  - rewrite load_dicom_series_run. unfold reported.
    destruct (GetGDCMSeriesFileNames directory) as [[|n ns]|e]; eauto.
    destruct (Execute (n :: ns)); eauto.
  - intros e He. rewrite load_dicom_series_run, He. reflexivity.
  - intros He. rewrite load_dicom_series_run, He. reflexivity.
  - intros names e Hn Hne He. rewrite load_dicom_series_run, Hn.
    destruct names as [|n ns]; [congruence |]. rewrite He. reflexivity.
  - rewrite load_dicom_series_run in H. unfold reported in H.
    destruct (GetGDCMSeriesFileNames directory) as [[|n ns]|e]; try discriminate.
    destruct (Execute (n :: ns)); congruence.
  - rewrite load_dicom_series_run in H. unfold reported in H.
    destruct (GetGDCMSeriesFileNames directory) as [[|n ns]|e] eqn:Hn;
      try discriminate.
    destruct (Execute (n :: ns)) eqn:He; [| discriminate].
    exists (n :: ns). repeat split; congruence.
  - intros [-> (names & Hn & Hne & He)].
    rewrite load_dicom_series_run, Hn.
    destruct names as [|n ns]; [congruence |]. rewrite He. reflexivity.
  - apply extract_slice_returns.
  - intros slicer img e Hp -> He. rewrite extract_slice_run, Hp, He.
    reflexivity.
  - intros slicer img s e Hp -> Hs He.
    rewrite extract_slice_run, Hp, Hs, He. reflexivity.
Qed.

(** C9: for a plane that is none of 'axial', 'coronal', 'sagittal',
    [extract_slice] returns [None]: reading the unbound [slice_image]
    raises inside the [try], and the handler shows the dialog. *)
Theorem extract_slice_unknown_plane image plane index log :
  plane <> "axial" -> plane <> "coronal" -> plane <> "sagittal" ->
  extract_slice image plane index log =
  (Returned None,
   (log ++ [showerror "Error"
              ("Failed to extract slice: " ++ unbound_local "slice_image")])%list).
Proof.
  intros Ha Hc Hs. rewrite extract_slice_run. unfold indexing.
  apply String.eqb_neq in Ha, Hc, Hs. rewrite Ha, Hc, Hs. reflexivity.
Qed.

Lemma apply_filter_other image filter_type :
  filter_type <> "Gaussian" -> apply_filter image filter_type = image.
Proof.
  intros H. unfold apply_filter. apply String.eqb_neq in H. now rewrite H.
Qed.

Lemma display_slice_run canvas image plane index color_map raw log log1 :
  extract_slice image plane index log = (Returned (Some raw), log1) ->
  display_slice canvas image plane index color_map log =
  (Returned tt,
   (log1 ++
    [figure_clear canvas;
     imshow canvas
       (if negb (String.eqb color_map "gray")
        then apply_color_map (astype_float32 raw) color_map
        else Gray (astype_float32 raw)) color_map;
     axis_off canvas; draw canvas])%list).
Proof.
  intros H. unfold display_slice. run. rewrite H. simpl.
  now rewrite <- !app_assoc.
Qed.

(** C7: for a colour map other than 'gray' and a slice with a positive
    maximum, the image handed to [imshow] is the colour map applied to
    the slice divided by its maximum, cut to the RGB channels; being
    RGB, it is painted as it is, so the colour map is applied once. *)
Theorem color_map_applied_once canvas image plane index color_map raw log log1 :
  extract_slice image plane index log = (Returned (Some raw), log1) ->
  color_map <> "gray" ->
  gt_zero (np_max (astype_float32 raw)) = true ->
  let slice_image := astype_float32 raw in
  let colored :=
    first3 (get_cmap color_map (divide slice_image (np_max slice_image))) in
  display_slice canvas image plane index color_map log =
  (Returned tt,
   (log1 ++ [figure_clear canvas; imshow canvas (RGB colored) color_map;
             axis_off canvas; draw canvas])%list) /\
  painted (RGB colored) color_map = colored.
Proof.
  intros H Hg Hpos. simpl. split; [| reflexivity].
  rewrite (display_slice_run _ _ _ _ _ _ _ _ H).
  apply String.eqb_neq in Hg. rewrite Hg. simpl.
  unfold apply_color_map. now rewrite Hpos.
Qed.

End Functions.

(** ** Facts about the methods of [MPRApp] *)

Section Methods.

Context {L : Libraries}.

Ltac run :=
  unfold emit; unfold bind, ret, raise, call, try_except, modify; simpl.

Lemma in_planes (P : string -> Prop) :
  (forall plane, In plane planes -> P plane) <->
  P "axial" /\ P "coronal" /\ P "sagittal".
Proof.
  unfold planes. simpl. split.
  - intros H. repeat split; apply H; auto.
  - intros (Ha & Hc & Hs) plane [<-|[<-|[<-|[]]]]; assumption.
Qed.

Lemma view_run app log plane index :
  In plane planes ->
  current_indices app !! plane = Some index ->
  (canvas <- getattr_canvas (plane ++ "_canvas") ;;
   a <- self ;;
   index <- getitem (current_indices a) plane ;;
   gui (display_slice canvas (image a) plane index (color_map_var a)))
    (app, log) = (Returned tt, (app, view_log app plane log)).
Proof.
  intros Hin Hi. unfold view_log. rewrite Hi.
  destruct (display_slice_returns (plane ++ "_canvas") (image app) plane index
              (color_map_var app) log) as (log' & Hd).
  assert (Hc : existsb (String.eqb (plane ++ "_canvas")) canvases = true).
  { revert Hin. unfold planes. simpl.
    intros [<-|[<-|[<-|[]]]]; reflexivity. }
  unfold getattr_canvas, self, getitem, gui. rewrite Hc. run.
  rewrite Hi. simpl. rewrite Hd. reflexivity.
Qed.

Lemma update_all_views_run app log :
  (forall plane, In plane planes -> is_Some (current_indices app !! plane)) ->
  update_all_views (app, log) =
  (Returned tt,
   (app,
    view_log app "sagittal" (view_log app "coronal" (view_log app "axial" log)))).
Proof.
  intros H. apply in_planes in H. destruct H as ([a Ha] & [c Hc] & [s Hs]).
  unfold update_all_views, planes. simpl for_each.
  unfold bind at 1. rewrite (view_run app _ "axial" a) by (simpl; auto).
  unfold bind at 1. rewrite (view_run app _ "coronal" c) by (simpl; auto).
  unfold bind at 1. rewrite (view_run app _ "sagittal" s) by (simpl; auto).
  reflexivity.
Qed.

Lemma update_all_views_returns app log :
  (forall plane, In plane planes -> is_Some (current_indices app !! plane)) ->
  exists log', update_all_views (app, log) = (Returned tt, (app, log')).
Proof. intros H. rewrite (update_all_views_run app log H). eauto. Qed.

(** The views are drawn without reading [filter_var]: choosing a filter
    redraws exactly what [update_all_views] draws without the choice. *)
Lemma choose_filter_run value app log :
  (forall plane, In plane planes -> is_Some (current_indices app !! plane)) ->
  choose_filter value (app, log) =
  (Returned tt,
   (set_filter_var value app, snd (snd (update_all_views (app, log))))).
Proof.
  intros H. unfold choose_filter, update_filter, update. run.
  rewrite (update_all_views_run (set_filter_var value app) log) by exact H.
  rewrite (update_all_views_run app log H). reflexivity.
Qed.

Lemma lookup_planes (d : gmap string Z) x y z :
  let d' := <["sagittal" := z]> (<["coronal" := y]> (<["axial" := x]> d)) in
  d' !! "axial" = Some x /\ d' !! "coronal" = Some y /\
  d' !! "sagittal" = Some z.
Proof. simpl. repeat split; by simplify_map_eq. Qed.

Lemma bounded_clamp x m : (0 <= m)%Z -> bounded x m = clamp x 0 m.
Proof. unfold bounded, clamp. intros H. repeat case_match; lia. Qed.

Lemma bounded_in_range x m : (0 <= m)%Z -> (0 <= bounded x m <= m)%Z.
Proof. unfold bounded. intros H. repeat case_match; lia. Qed.

Lemma bounded_inside i m d :
  (0 < i < m)%Z -> d = 1%Z \/ d = (-1)%Z -> bounded (i + d) m = (i + d)%Z.
Proof. unfold bounded. intros H Hd. repeat case_match; lia. Qed.

(** One run of [change_slice] on an object whose dictionaries have the
    three planes. *)
Lemma change_slice_run direction app log a c s ma mc ms :
  current_indices app !! "axial" = Some a ->
  current_indices app !! "coronal" = Some c ->
  current_indices app !! "sagittal" = Some s ->
  max_indices app !! "axial" = Some ma ->
  max_indices app !! "coronal" = Some mc ->
  max_indices app !! "sagittal" = Some ms ->
  exists log',
    change_slice direction (app, log) =
    (Returned tt,
     (set_current_indices
        (<["sagittal" := bounded (s + direction) ms]>
           (<["coronal" := bounded (c + direction) mc]>
              (<["axial" := bounded (a + direction) ma]>
                 (current_indices app)))) app, log')).
Proof.
  intros Ha Hc Hs Hma Hmc Hms. unfold change_slice.
  match goal with |- context [for_each planes ?b] => set (body := b) end.
  assert (Hbody : forall plane x l i m,
             current_indices x !! plane = Some i ->
             max_indices x !! plane = Some m ->
             body plane (x, l) =
             (Returned tt,
              (set_current_indices
                 (<[plane := bounded (i + direction) m]> (current_indices x)) x,
               l))).
  { intros plane x l i m Hi Hm. unfold body, self, getitem, update, bounded.
    run. rewrite Hi. simpl. rewrite lookup_insert_eq. simpl.
    destruct (i + direction <? 0)%Z; simpl.
    - now rewrite insert_insert_eq.
    - rewrite lookup_insert_eq, Hm. simpl.
      destruct (i + direction >? m)%Z; simpl; [| reflexivity].
      rewrite Hm. simpl. now rewrite insert_insert_eq. }
  clearbody body. unfold planes. simpl for_each.
  unfold bind at 1. unfold bind at 1.
  rewrite (Hbody "axial" app log a ma Ha Hma).
  unfold bind at 1.
  erewrite (Hbody "coronal" _ log c mc); cycle 1.
  { simpl. now rewrite lookup_insert_ne. }
  { simpl. assumption. }
  unfold bind at 1.
  erewrite (Hbody "sagittal" _ log s ms); cycle 1.
  { simpl. now rewrite !lookup_insert_ne. }
  { simpl. assumption. }
  unfold ret at 1. simpl.
  match goal with
  | |- context [update_all_views (?x, log)] =>
      destruct (update_all_views_returns x log) as (log' & Hv)
  end.
  { apply in_planes. simpl.
    match goal with
    | |- context [<[_ := ?z]> (<[_ := ?y]> (<[_ := ?x]> ?d))] =>
        destruct (lookup_planes d x y z) as (-> & -> & ->)
    end. eauto. }
  exists log'. exact Hv.
Qed.

Lemma change_slice_spec direction app log :
  has_planes app ->
  exists app' log',
    change_slice direction (app, log) = (Returned tt, (app', log')) /\
    max_indices app' = max_indices app /\
    forall plane i m,
      In plane planes ->
      current_indices app !! plane = Some i ->
      max_indices app !! plane = Some m ->
      current_indices app' !! plane = Some (bounded (i + direction) m).
Proof.
  intros H. apply in_planes in H.
  destruct H as (([a Ha] & [ma Hma]) & ([c Hc] & [mc Hmc]) & ([s Hs] & [ms Hms])).
  destruct (change_slice_run direction app log a c s ma mc ms)
    as (log' & Hrun); try assumption.
  eexists. exists log'. split; [exact Hrun |]. split; [reflexivity |].
  intros plane i m Hin Hi Hm. simpl.
  match goal with
  | |- context [<[_ := ?z]> (<[_ := ?y]> (<[_ := ?x]> ?d))] =>
      destruct (lookup_planes d x y z) as (Hx & Hy & Hz)
  end.
  revert Hin. unfold planes. simpl.
  intros [<-|[<-|[<-|[]]]]; congruence.
Qed.

Lemma in_range_has_planes app : indices_in_range app -> has_planes app.
Proof.
  intros H plane Hin. destruct (H plane Hin) as (i & m & Hi & Hm & _).
  rewrite Hi, Hm. eauto.
Qed.

Lemma indices_in_range_planes app :
  index_in_range app "axial" -> index_in_range app "coronal" ->
  index_in_range app "sagittal" -> indices_in_range app.
Proof. intros Ha Hc Hs. unfold indices_in_range. apply in_planes. auto. Qed.

Lemma change_slice_in_range direction app log :
  indices_in_range app ->
  exists app' log',
    change_slice direction (app, log) = (Returned tt, (app', log')) /\
    max_indices app' = max_indices app /\
    indices_in_range app'.
Proof.
  intros H.
  destruct (change_slice_spec direction app log (in_range_has_planes _ H))
    as (app' & log' & Hrun & Hmax & Hcur).
  exists app', log'. repeat split; try assumption.
  intros plane Hin. destruct (H plane Hin) as (i & m & Hi & Hm & Hr).
  exists (bounded (i + direction) m), m. rewrite Hmax.
  repeat split; auto; apply bounded_in_range; lia.
Qed.

(** C1: from a state whose indices lie within [0, max index], any
    sequence of left/right steps ends in such a state, and one step sets
    the index of each plane to clamp(old index + direction, 0, max index). *)
Theorem slice_indices_stay_clamped app log directions :
  indices_in_range app ->
  Forall (fun d => d = 1%Z \/ d = (-1)%Z) directions ->
  (exists app' log',
     for_each directions change_slice (app, log) = (Returned tt, (app', log')) /\
     indices_in_range app' /\
     max_indices app' = max_indices app) /\
  (forall d, d = 1%Z \/ d = (-1)%Z ->
     exists app' log',
       change_slice d (app, log) = (Returned tt, (app', log')) /\
       forall plane i m,
         In plane planes ->
         current_indices app !! plane = Some i ->
         max_indices app !! plane = Some m ->
         current_indices app' !! plane = Some (clamp (i + d) 0 m)).
Proof.
  intros Hr Hd. split.
  - clear Hd. revert app log Hr.
    induction directions as [|d ds IH]; intros app log Hr.
    + exists app, log. simpl. auto.
    + destruct (change_slice_in_range d app log Hr)
        as (app1 & log1 & Hrun & Hmax & Hr1).
      destruct (IH app1 log1 Hr1) as (app' & log' & Hrest & Hr' & Hmax').
      exists app', log'. simpl. unfold bind at 1. rewrite Hrun.
      repeat split; try assumption. congruence.
  - intros d _.
    destruct (change_slice_spec d app log (in_range_has_planes _ Hr))
      as (app' & log' & Hrun & _ & Hcur).
    exists app', log'. split; [exact Hrun |].
    intros plane i m Hin Hi Hm. rewrite (Hcur plane i m Hin Hi Hm).
    destruct (Hr plane Hin) as (i' & m' & Hi' & Hm' & Hrange).
    rewrite bounded_clamp; [reflexivity |]. rewrite Hm in Hm'.
    injection Hm' as ->. lia.
Qed.

(** C5: the left and right arrow keys run [change_slice] with -1 and +1,
    and one run moves every plane: each index strictly inside its range
    changes by exactly that direction. *)
Theorem arrow_keys_step_all_planes app log keysym direction :
  has_planes app ->
  keysym = "Left" /\ direction = (-1)%Z \/
  keysym = "Right" /\ direction = 1%Z ->
  on_key keysym = change_slice direction /\
  exists app' log',
    on_key keysym (app, log) = (Returned tt, (app', log')) /\
    forall plane i m,
      In plane planes ->
      current_indices app !! plane = Some i ->
      max_indices app !! plane = Some m ->
      (0 < i < m)%Z ->
      current_indices app' !! plane = Some (i + direction)%Z.
Proof.
  intros Hp Hk.
  assert (Hkey : on_key keysym = change_slice direction).
  { destruct Hk as [[-> ->]|[-> ->]]; reflexivity. }
  split; [exact Hkey |]. rewrite Hkey.
  destruct (change_slice_spec direction app log Hp)
    as (app' & log' & Hrun & _ & Hcur).
  exists app', log'. split; [exact Hrun |].
  intros plane i m Hin Hi Hm Hinside.
  rewrite (Hcur plane i m Hin Hi Hm), bounded_inside; [reflexivity | lia |].
  destruct Hk as [[_ ->]|[_ ->]]; auto.
Qed.

Lemma on_scroll_run plane index app log :
  has_planes app ->
  exists log',
    on_scroll plane index (app, log) =
    (Returned tt,
     (set_current_indices (<[plane := index]> (current_indices app)) app,
      log')).
Proof.
  intros Hp. unfold on_scroll, update. run.
  match goal with
  | |- context [update_all_views (?x, log)] =>
      destruct (update_all_views_returns x log) as (log' & Hv)
  end.
  { intros p Hin. simpl. destruct (decide (plane = p)) as [->|Hne].
    - rewrite lookup_insert_eq. eauto.
    - rewrite lookup_insert_ne by assumption. apply (Hp p Hin). }
  exists log'. exact Hv.
Qed.

(** A successful [load_dicom]: what it leaves in the object. *)
Lemma load_dicom_run dicom_dir app log img log1 size0 size1 size2 :
  dicom_dir <> "" ->
  load_dicom_series dicom_dir log = (Returned (Some img), log1) ->
  GetSize img = (size0, size1, size2) ->
  exists app' log',
    load_dicom dicom_dir (app, log) = (Returned tt, (app', log')) /\
    image app' = Some img /\
    max_indices app' =
      <["sagittal" := size0 - 1]>
        (<["coronal" := size1 - 1]> (<["axial" := size2 - 1]> ∅)) /\
    current_indices app' =
      <["sagittal" := (size0 - 1) / 2]>
        (<["coronal" := (size1 - 1) / 2]>
           (<["axial" := (size2 - 1) / 2]> (current_indices app))) /\
    axial_scroll app' = config_to (axial_scroll app) (size2 - 1) /\
    coronal_scroll app' = config_to (coronal_scroll app) (size1 - 1) /\
    sagittal_scroll app' = config_to (sagittal_scroll app) (size0 - 1).
Proof.
  intros Hdir Hload Hsize. unfold load_dicom.
  apply String.eqb_neq in Hdir. rewrite Hdir. simpl.
  unfold gui at 1. unfold bind at 1. simpl. rewrite Hload.
  unfold update at 1. unfold bind at 1. unfold modify at 1. simpl.
  rewrite Hsize.
  unfold update, self, getitem, planes. simpl for_each. run.
  rewrite !lookup_insert_ne, lookup_insert_eq by done. simpl.
  rewrite lookup_insert_ne, lookup_insert_eq by done. simpl.
  rewrite lookup_insert_eq. simpl.
  rewrite !lookup_insert_ne, lookup_insert_eq by done. simpl.
  rewrite lookup_insert_ne, lookup_insert_eq by done. simpl.
  rewrite lookup_insert_eq. simpl.
  match goal with
  | |- context [update_all_views (?x, log1)] =>
      destruct (update_all_views_returns x log1) as (log2 & Hv)
  end.
  { apply in_planes. simpl.
    match goal with
    | |- context [<[_ := ?z]> (<[_ := ?y]> (<[_ := ?x]> ?d))] =>
        destruct (lookup_planes d x y z) as (-> & -> & ->)
    end. eauto. }
  rewrite Hv. unfold gui. simpl.
  eexists. eexists. split; [reflexivity |]. simpl. repeat split.
Qed.

(** C4: after a series has loaded, each slider ranges from 0 to the
    size of the volume along its axis minus one, and [max_indices] holds
    exactly these upper bounds. *)
Theorem slider_bounds_match_volume dicom_dir app log img log1 sx sy sz :
  dicom_dir <> "" ->
  load_dicom_series dicom_dir log = (Returned (Some img), log1) ->
  GetSize img = (sx, sy, sz) ->
  scrolls_from_zero app ->
  exists app' log',
    load_dicom dicom_dir (app, log) = (Returned tt, (app', log')) /\
    axial_scroll app' = {| from_ := 0; to := sz - 1 |} /\
    coronal_scroll app' = {| from_ := 0; to := sy - 1 |} /\
    sagittal_scroll app' = {| from_ := 0; to := sx - 1 |} /\
    max_indices app' =
      <["sagittal" := sx - 1]>
        (<["coronal" := sy - 1]> (<["axial" := sz - 1]> ∅)).
Proof.
  intros Hdir Hload Hsize (Ha & Hc & Hs).
  destruct (load_dicom_run dicom_dir app log img log1 sx sy sz Hdir Hload Hsize)
    as (app' & log' & Hrun & _ & Hmax & _ & Hax & Hco & Hsa).
  exists app', log'. rewrite Hax, Hco, Hsa. unfold config_to.
  rewrite Ha, Hc, Hs. auto.
Qed.

(** C10: after a series has loaded, the index of every plane is the
    midpoint of its range, (size - 1) div 2, whatever it was before. *)
Theorem indices_start_at_midpoint dicom_dir app log img log1 sx sy sz :
  dicom_dir <> "" ->
  load_dicom_series dicom_dir log = (Returned (Some img), log1) ->
  GetSize img = (sx, sy, sz) ->
  exists app' log',
    load_dicom dicom_dir (app, log) = (Returned tt, (app', log')) /\
    current_indices app' !! "axial" = Some ((sz - 1) / 2) /\
    current_indices app' !! "coronal" = Some ((sy - 1) / 2) /\
    current_indices app' !! "sagittal" = Some ((sx - 1) / 2).
Proof.
  intros Hdir Hload Hsize.
  destruct (load_dicom_run dicom_dir app log img log1 sx sy sz Hdir Hload Hsize)
    as (app' & log' & Hrun & _ & _ & Hcur & _).
  exists app', log'. split; [exact Hrun |]. rewrite Hcur.
  apply lookup_planes.
Qed.

Lemma capture_snapshot_run plane app log index raw log1 :
  current_indices app !! plane = Some index ->
  extract_slice (image app) plane index log = (Returned (Some raw), log1) ->
  capture_snapshot plane (app, log) =
  (Returned tt,
   (app,
    (log1 ++
     [delete_all (plane ++ "_snapshot_canvas");
      create_image (plane ++ "_snapshot_canvas")
        (if negb (String.eqb (filter_var app) "None")
         then apply_filter raw (filter_var app) else raw)])%list)).
Proof.
  intros Hi Hx. destruct (extract_slice_some _ _ _ _ _ _ Hx) as (_ & Hp).
  assert (Hc : existsb (String.eqb (plane ++ "_snapshot_canvas")) canvases
               = true).
  { destruct Hp as [->|[->| ->]]; reflexivity. }
  unfold capture_snapshot, self, getitem, gui, getattr_canvas.
  rewrite Hc. run. rewrite Hi. simpl. rewrite Hx. simpl.
  now rewrite <- app_assoc.
Qed.

(** C8: [apply_filter] returns its input for every filter type other
    than 'Gaussian', so a snapshot captured while such a type (as 'None')
    is selected shows the slice as it was extracted. *)
Theorem apply_filter_identity (a : ndarray) filter_type :
  filter_type <> "Gaussian" ->
  apply_filter a filter_type = a /\
  forall plane app log index raw log1,
    filter_var app = filter_type ->
    current_indices app !! plane = Some index ->
    extract_slice (image app) plane index log
      = (Returned (Some raw), log1) ->
    capture_snapshot plane (app, log) =
    (Returned tt,
     (app,
      (log1 ++ [delete_all (plane ++ "_snapshot_canvas");
                create_image (plane ++ "_snapshot_canvas") raw])%list)).
Proof.
  intros Hf. split; [now apply apply_filter_other |].
  intros plane app log index raw log1 Hv Hi Hx.
  rewrite (capture_snapshot_run plane app log index raw log1 Hi Hx), Hv.
  rewrite apply_filter_other by assumption. now destruct (negb _).
Qed.

End Methods.

(** ** The indices under every use of the widgets *)

Section Widgets.

Context {L : Libraries}.

(** A volume that the reader produces has at least one voxel along each
    axis. *)
Hypothesis Execute_nonempty :
  forall names img,
    Execute names = Returned img ->
    let '(sx, sy, sz) := GetSize img in (1 <= sx /\ 1 <= sy /\ 1 <= sz)%Z.

Ltac run :=
  unfold emit; unfold bind, ret, raise, call, try_except, modify; simpl.

Lemma load_dicom_series_returns directory log :
  exists r log', load_dicom_series directory log = (Returned r, log').
Proof.
  rewrite load_dicom_series_run. unfold reported.
  destruct (GetGDCMSeriesFileNames directory) as [[|n ns]|e]; eauto.
  destruct (Execute (n :: ns)); eauto.
Qed.

Lemma load_dicom_series_some directory log img log1 :
  load_dicom_series directory log = (Returned (Some img), log1) ->
  log1 = log /\ exists names, Execute names = Returned img.
Proof.
  rewrite load_dicom_series_run. unfold reported.
  destruct (GetGDCMSeriesFileNames directory) as [[|n ns]|e]; try discriminate.
  destruct (Execute (n :: ns)) eqn:He; [| discriminate].
  intros [= <- <-]. eauto.
Qed.

Lemma load_dicom_cancelled app log :
  load_dicom "" (app, log) =
  (Returned tt,
   (app, (log ++ [showwarning "Error" "Please select a valid directory."])%list)).
Proof. reflexivity. Qed.

Lemma load_dicom_failed dicom_dir app log log1 :
  dicom_dir <> "" ->
  load_dicom_series dicom_dir log = (Returned None, log1) ->
  load_dicom dicom_dir (app, log) =
  (Returned tt,
   (set_image None app,
    (log1 ++ [showwarning "Error" "Failed to load the DICOM series."])%list)).
Proof.
  intros Hdir Hload. unfold load_dicom.
  apply String.eqb_neq in Hdir. rewrite Hdir. simpl.
  unfold gui, update. run. rewrite Hload. reflexivity.
Qed.

Lemma capture_snapshot_returns plane app log :
  In plane planes ->
  is_Some (current_indices app !! plane) ->
  exists log', capture_snapshot plane (app, log) = (Returned tt, (app, log')).
Proof.
  intros Hin [index Hi].
  destruct (extract_slice_returns (image app) plane index log)
    as ([raw|] & log1 & Hx).
  - rewrite (capture_snapshot_run plane app log index raw log1 Hi Hx). eauto.
  - exists log1. unfold capture_snapshot, self, getitem, gui. run.
    rewrite Hi. simpl. rewrite Hx. reflexivity.
Qed.

Lemma choose_color_map_run value app log :
  (forall plane, In plane planes -> is_Some (current_indices app !! plane)) ->
  exists log',
    choose_color_map value (app, log) =
    (Returned tt, (set_color_map_var value app, log')).
Proof.
  intros H. unfold choose_color_map, update_color_map, update. run.
  rewrite (update_all_views_run (set_color_map_var value app) log) by exact H.
  eauto.
Qed.

Lemma scroll_of_planes app plane w :
  scroll_of app plane = Some w -> In plane planes.
Proof.
  unfold scroll_of, planes. simpl.
  destruct (String.eqb_spec plane "axial"); [auto |].
  destruct (String.eqb_spec plane "coronal"); [auto |].
  destruct (String.eqb_spec plane "sagittal"); [auto | discriminate].
Qed.

Lemma consistent_planes app :
  consistent app <-> forall plane, In plane planes -> plane_consistent app plane.
Proof. symmetry. apply in_planes. Qed.

Lemma consistent_in_range app : consistent app -> indices_in_range app.
Proof.
  intros H plane Hin.
  destruct (proj1 (consistent_planes app) H plane Hin)
    as (i & m & w & Hi & Hm & Hr & _).
  exists i, m. auto.
Qed.

Lemma plane_consistent_insert app plane v p :
  plane_consistent app p ->
  (plane = p -> forall m, max_indices app !! p = Some m -> (0 <= v <= m)%Z) ->
  plane_consistent
    (set_current_indices (<[plane := v]> (current_indices app)) app) p.
Proof.
  intros (i & m & w & Hi & Hm & Hr & Hw & Hf & Ht) Hv.
  unfold plane_consistent. simpl. destruct (decide (plane = p)) as [->|Hne].
  - exists v, m, w. rewrite lookup_insert_eq.
    split; [reflexivity |]. split; [assumption |].
    split; [now apply Hv |]. auto.
  - exists i, m, w. rewrite lookup_insert_ne by assumption.
    do 3 (split; [assumption |]). auto.
Qed.

Lemma consistent_insert app plane v :
  consistent app ->
  (forall m, max_indices app !! plane = Some m -> (0 <= v <= m)%Z) ->
  consistent (set_current_indices (<[plane := v]> (current_indices app)) app).
Proof.
  intros (Ha & Hc & Hs) Hv.
  repeat split; apply plane_consistent_insert; auto; intros ->; exact Hv.
Qed.

Lemma consistent_change_slice direction app log :
  consistent app ->
  exists app' log',
    change_slice direction (app, log) = (Returned tt, (app', log')) /\
    consistent app'.
Proof.
  intros H. pose proof H as (Ha & Hc & Hs).
  destruct Ha as (a & ma & wa & Ha & Hma & Hra & _).
  destruct Hc as (c & mc & wc & Hc & Hmc & Hrc & _).
  destruct Hs as (s & ms & ws & Hs & Hms & Hrs & _).
  destruct (change_slice_run direction app log a c s ma mc ms)
    as (log' & Hrun); try assumption.
  eexists. exists log'. split; [exact Hrun |].
  assert (H1 := consistent_insert app "axial" (bounded (a + direction) ma) H).
  lapply H1; [clear H1; intros H1 |].
  2:{ intros m Hm. rewrite Hma in Hm. injection Hm as <-.
      apply bounded_in_range. lia. }
  assert (H2 := consistent_insert _ "coronal" (bounded (c + direction) mc) H1).
  lapply H2; [clear H2; intros H2 |].
  2:{ simpl. intros m Hm. rewrite Hmc in Hm. injection Hm as <-.
      apply bounded_in_range. lia. }
  assert (H3 := consistent_insert _ "sagittal" (bounded (s + direction) ms) H2).
  lapply H3; [clear H3; intros H3 |].
  2:{ simpl. intros m Hm. rewrite Hms in Hm. injection Hm as <-.
      apply bounded_in_range. lia. }
  exact H3.
Qed.


Lemma midpoint_in_range n : (1 <= n)%Z -> (0 <= (n - 1) / 2 <= n - 1)%Z.
Proof. intros H. split; [apply Z.div_pos | apply Z.div_le_upper_bound]; lia. Qed.

Lemma consistent_load dicom_dir app log :
  consistent app ->
  exists app' log',
    load_dicom dicom_dir (app, log) = (Returned tt, (app', log')) /\
    consistent app'.
Proof.
  intros H. destruct (String.eqb_spec dicom_dir "") as [->|Hdir].
  { rewrite load_dicom_cancelled. eauto. }
  destruct (load_dicom_series_returns dicom_dir log) as ([img|] & log1 & Hload).
  - destruct (load_dicom_series_some dicom_dir log img log1 Hload)
      as (_ & names & Hexec).
    pose proof (Execute_nonempty names img Hexec) as Hpos.
    destruct (GetSize img) as [[sx sy] sz] eqn:Hsize.
    destruct Hpos as (Hx & Hy & Hz).
    destruct (load_dicom_run dicom_dir app log img log1 sx sy sz Hdir Hload Hsize)
      as (app' & log' & Hrun & _ & Hmax & Hcur & Hax & Hco & Hsa).
    exists app', log'. split; [exact Hrun |].
    destruct H as ((_ & _ & wa & _ & _ & _ & Hwa & Hfa & _) &
                   (_ & _ & wc & _ & _ & _ & Hwc & Hfc & _) &
                   (_ & _ & ws & _ & _ & _ & Hws & Hfs & _)).
    injection Hwa as <-. injection Hwc as <-. injection Hws as <-.
    destruct (lookup_planes (current_indices app)
                ((sz - 1) / 2) ((sy - 1) / 2) ((sx - 1) / 2))
      as (Hca & Hcc & Hcs).
    destruct (lookup_planes (∅ : gmap string Z) (sz - 1) (sy - 1) (sx - 1))
      as (Hmaa & Hmc & Hms).
    split; [| split].
    + exists ((sz - 1) / 2), (sz - 1), (axial_scroll app').
      rewrite Hcur, Hmax.
      split; [exact Hca |]. split; [exact Hmaa |].
      split; [now apply midpoint_in_range |]. split; [reflexivity |].
      rewrite Hax. auto.
    + exists ((sy - 1) / 2), (sy - 1), (coronal_scroll app').
      rewrite Hcur, Hmax.
      split; [exact Hcc |]. split; [exact Hmc |].
      split; [now apply midpoint_in_range |]. split; [reflexivity |].
      rewrite Hco. auto.
    + exists ((sx - 1) / 2), (sx - 1), (sagittal_scroll app').
      rewrite Hcur, Hmax.
      split; [exact Hcs |]. split; [exact Hms |].
      split; [now apply midpoint_in_range |]. split; [reflexivity |].
      rewrite Hsa. auto.
  - rewrite (load_dicom_failed dicom_dir app log log1 Hdir Hload).
    eexists. eexists. split; [reflexivity | exact H].
Qed.

(** Whatever the user does with the widgets, the callback returns and
    the indices stay within [0, max index], with the sliders spanning
    exactly these ranges: [on_scroll] needs no clamp of its own. *)
Theorem callbacks_keep_consistency app log action :
  consistent app ->
  deliverable app action ->
  exists app' log',
    callback action (app, log) = (Returned tt, (app', log')) /\
    consistent app'.
Proof.
  intros H Hd.
  pose proof (in_range_has_planes _ (consistent_in_range _ H)) as Hp.
  assert (Hkeys : forall plane, In plane planes ->
                                is_Some (current_indices app !! plane)).
  { intros plane Hin. apply (Hp plane Hin). }
  destruct action as [answer|value|value|plane|plane val|keysym]; simpl in *.
  - now apply consistent_load.
  - destruct (choose_color_map_run value app log Hkeys) as (log' & Hrun).
    rewrite Hrun. eexists. eexists. split; [reflexivity | exact H].
  - rewrite (choose_filter_run value app log Hkeys).
    eexists. eexists. split; [reflexivity | exact H].
  - destruct (capture_snapshot_returns plane app log Hd (Hkeys plane Hd))
      as (log' & Hrun).
    rewrite Hrun. eauto.
  - destruct Hd as (w & Hw & Hval).
    destruct (on_scroll_run plane val app log Hp) as (log' & Hrun).
    rewrite Hrun. eexists. eexists. split; [reflexivity |].
    apply consistent_insert; [exact H |]. intros m Hm.
    destruct (proj1 (consistent_planes app) H plane
                (scroll_of_planes _ _ _ Hw))
      as (i & m' & w' & _ & Hm' & _ & Hw' & Hf & Ht).
    rewrite Hw in Hw'. injection Hw' as <-.
    rewrite Hm in Hm'. injection Hm' as <-. lia.
  - unfold on_key.
    destruct (String.eqb keysym "Left");
      [now apply consistent_change_slice |].
    destruct (String.eqb keysym "Right");
      [now apply consistent_change_slice |].
    exists app, log. auto.
Qed.

Lemma init_consistent : consistent init.
Proof.
  destruct (lookup_planes (∅ : gmap string Z) 0 0 0) as (Ha & Hc & Hs).
  split; [| split].
  - exists 0%Z, 0%Z, create_scrollbar. simpl. rewrite Ha.
    do 2 (split; [reflexivity |]). split; [lia |]. auto.
  - exists 0%Z, 0%Z, create_scrollbar. simpl. rewrite Hc.
    do 2 (split; [reflexivity |]). split; [lia |]. auto.
  - exists 0%Z, 0%Z, create_scrollbar. simpl. rewrite Hs.
    do 2 (split; [reflexivity |]). split; [lia |]. auto.
Qed.

Lemma after_cons s action rest :
  after s (action :: rest) = after (snd (callback action s)) rest.
Proof. reflexivity. Qed.

Lemma consistent_after actions : forall app log,
  consistent app ->
  deliverable_all (app, log) actions ->
  consistent (fst (after (app, log) actions)).
Proof.
  induction actions as [|action rest IH]; intros app log H Hd.
  - exact H.
  - destruct Hd as (Hd & Hrest). cbn beta in Hd, Hrest.
    change (fst (app, log)) with app in Hd.
    destruct (callbacks_keep_consistency app log action H Hd)
      as (app1 & log1 & Hrun & H1).
    rewrite after_cons. rewrite Hrun in Hrest |- *.
    change (snd (Returned tt, (app1, log1))) with (app1, log1) in Hrest |- *.
    now apply IH.
Qed.

(** X1: the object stays consistent through every session.  From the
    object that [__init__] builds, after any sequence of actions that
    the widgets can deliver, each index lies within [0, max index] and
    the slider of its plane spans from 0 to that max index.  The
    statement is about the object; what the rendering calls do to the
    screen is no part of it. *)
Theorem sessions_stay_consistent actions log :
  deliverable_all (init, log) actions ->
  consistent (fst (after (init, log) actions)).
Proof. intros Hd. apply consistent_after; [apply init_consistent | exact Hd]. Qed.

End Widgets.

(** ** Loads that fail, and the object before a load *)

Section Unloaded.

Context {L : Libraries}.

Ltac run :=
  unfold emit; unfold bind, ret, raise, call, try_except, modify; simpl.

Lemma load_dicom_series_failure directory e log :
  load_failure directory = Some e ->
  load_dicom_series directory log =
  reported "Failed to load DICOM series: " e log.
Proof.
  unfold load_failure. rewrite load_dicom_series_run.
  destruct (GetGDCMSeriesFileNames directory) as [[|n ns]|e'].
  - intros [= <-]. reflexivity.
  - destruct (Execute (n :: ns)); [discriminate |].
    intros [= <-]. reflexivity.
  - intros [= <-]. reflexivity.
Qed.

(** X2: a load that does not succeed.  When the dialog is cancelled,
    [load_dicom] shows one warning and leaves the object as it is.  When
    the series cannot be read, the user gets two dialogs (the error of
    [load_dicom_series], then the warning), [self.image] becomes [None]
    (a volume loaded earlier is dropped) and the indices, their bounds
    and the sliders keep their values. *)
Theorem unsuccessful_load app log :
  load_dicom "" (app, log) =
  (Returned tt,
   (app,
    (log ++ [showwarning "Error" "Please select a valid directory."])%list)) /\
  forall dicom_dir e,
    dicom_dir <> "" ->
    load_failure dicom_dir = Some e ->
    load_dicom dicom_dir (app, log) =
    (Returned tt,
     (set_image None app,
      (log ++
       [showerror "Error" ("Failed to load DICOM series: " ++ str e);
        showwarning "Error" "Failed to load the DICOM series."])%list)).
Proof.
  split; [reflexivity |]. intros dicom_dir e Hdir He.
  rewrite (load_dicom_failed dicom_dir app log
             (log ++ [showerror "Error"
                        ("Failed to load DICOM series: " ++ str e)])%list Hdir).
  - now rewrite <- app_assoc.
  - now apply load_dicom_series_failure.
Qed.

Lemma display_slice_no_volume canvas plane index color_map log :
  In plane planes ->
  display_slice canvas None plane index color_map log =
  (Returned tt, (log ++ [no_volume_dialog])%list).
Proof. unfold planes. simpl. intros [<-|[<-|[<-|[]]]]; reflexivity. Qed.

(** X3: while no volume is loaded, a redraw of the views draws nothing:
    it shows the same error dialog three times, once for each plane,
    and returns with the object unchanged. *)
Theorem views_without_volume app log :
  image app = None ->
  (forall plane, In plane planes -> is_Some (current_indices app !! plane)) ->
  update_all_views (app, log) =
  (Returned tt,
   (app,
    (log ++ [no_volume_dialog; no_volume_dialog; no_volume_dialog])%list)).
Proof.
  intros Himg Hkeys. rewrite (update_all_views_run app log Hkeys).
  apply in_planes in Hkeys. destruct Hkeys as ([a Ha] & [c Hc] & [s Hs]).
  unfold view_log. rewrite Ha, Hc, Hs, Himg.
  rewrite !display_slice_no_volume by (unfold planes; simpl; auto).
  simpl. now rewrite <- !app_assoc.
Qed.

(** X4: while no volume is loaded, a capture button shows that error
    dialog once and leaves its snapshot canvas untouched: nothing is
    deleted and nothing is drawn. *)
Theorem capture_without_volume plane app log :
  image app = None ->
  In plane planes ->
  is_Some (current_indices app !! plane) ->
  capture_snapshot plane (app, log) =
  (Returned tt, (app, (log ++ [no_volume_dialog])%list)).
Proof.
  intros Himg Hin [index Hi].
  unfold capture_snapshot, self, getitem, gui. run. rewrite Hi, Himg. simpl.
  revert Hin. unfold planes. simpl. intros [<-|[<-|[<-|[]]]]; reflexivity.
Qed.

End Unloaded.

(** ** What the views and the snapshots read of the object *)

Section Choices.

Context {L : Libraries}.

Ltac run :=
  unfold emit; unfold bind, ret, raise, call, try_except, modify; simpl.

(** A loop whose body commutes with a change [g] of the object commutes
    with it as a whole. *)
Lemma for_each_on_object {A} (g : MPRApp -> MPRApp) (xs : list A)
    (body : A -> Method unit) :
  (forall x app log, body x (g app, log) = on_object g (body x (app, log))) ->
  forall app log,
    for_each xs body (g app, log) = on_object g (for_each xs body (app, log)).
Proof.
  intros Hbody. induction xs as [|x rest IH]; intros app log.
  - reflexivity.
  - simpl. unfold bind. rewrite Hbody. unfold on_object at 1.
    destruct (body x (app, log)) as [[[]|e] [app1 log1]]; simpl.
    + apply IH.
    + reflexivity.
Qed.

(** X5: the views never read [filter_var].  A redraw on the object with
    any other filter value ends the same way and puts the same events
    on the screen; so the redraw that the filter menu triggers shows
    what a redraw without the choice would show. *)
Theorem views_ignore_filter value app log :
  update_all_views (set_filter_var value app, log) =
    on_object (set_filter_var value) (update_all_views (app, log)) /\
  choose_filter value (app, log) =
    on_object (set_filter_var value) (update_all_views (app, log)).
Proof.
  assert (H : update_all_views (set_filter_var value app, log) =
              on_object (set_filter_var value) (update_all_views (app, log))).
  { unfold update_all_views. apply for_each_on_object.
    intros plane x l. unfold on_object, getattr_canvas, self, getitem, gui.
    destruct (existsb (String.eqb (plane ++ "_canvas")) canvases); run;
      [| reflexivity].
    destruct (current_indices x !! plane) as [index|]; simpl; [| reflexivity].
    destruct (display_slice _ _ _ _ _ l); reflexivity. }
  split; [exact H |].
  unfold choose_filter, update_filter, update. run. exact H.
Qed.

(** X6: a snapshot never reads [color_map_var]: captured on the object
    with any other colour map, it ends the same way and puts the same
    events on the screen. *)
Theorem snapshot_ignores_color_map value plane app log :
  capture_snapshot plane (set_color_map_var value app, log) =
  on_object (set_color_map_var value) (capture_snapshot plane (app, log)).
Proof.
  unfold capture_snapshot, on_object, self, getitem, gui, getattr_canvas.
  destruct (existsb (String.eqb (plane ++ "_snapshot_canvas")) canvases); run;
    (destruct (current_indices app !! plane) as [index|]; simpl;
     [| reflexivity]);
    destruct (extract_slice (image app) plane index log) as [[[raw|]|e] log1];
    reflexivity.
Qed.

(** X7: with 'Gaussian' selected, a capture clears the snapshot canvas
    of its plane and draws the thumbnail of the extracted slice blurred
    by [gaussian_filter] with sigma 1; the object is not changed. *)
Theorem snapshot_is_blurred plane app log index raw log1 :
  filter_var app = "Gaussian" ->
  current_indices app !! plane = Some index ->
  extract_slice (image app) plane index log = (Returned (Some raw), log1) ->
  capture_snapshot plane (app, log) =
  (Returned tt,
   (app,
    (log1 ++ [delete_all (plane ++ "_snapshot_canvas");
              create_image (plane ++ "_snapshot_canvas")
                (gaussian_filter raw 1)])%list)).
Proof.
  intros Hf Hi Hx.
  rewrite (capture_snapshot_run plane app log index raw log1 Hi Hx), Hf.
  reflexivity.
Qed.

End Choices.

(** ** Steps of the arrow keys, composed *)

Section Steps.

Context {L : Libraries}.

Lemma change_slice_twice d1 d2 app log :
  indices_in_range app ->
  exists app' log',
    (change_slice d1 ;; change_slice d2) (app, log)
      = (Returned tt, (app', log')) /\
    forall plane i m,
      In plane planes ->
      current_indices app !! plane = Some i ->
      max_indices app !! plane = Some m ->
      current_indices app' !! plane
        = Some (bounded (bounded (i + d1) m + d2) m).
Proof.
  intros Hr.
  destruct (change_slice_spec d1 app log (in_range_has_planes _ Hr))
    as (app1 & log1 & Hrun1 & Hmax1 & Hcur1).
  destruct (change_slice_in_range d1 app log Hr)
    as (app1' & log1' & Hrun1' & _ & Hr1).
  rewrite Hrun1 in Hrun1'. injection Hrun1' as <- <-.
  destruct (change_slice_spec d2 app1 log1 (in_range_has_planes _ Hr1))
    as (app2 & log2 & Hrun2 & _ & Hcur2).
  exists app2, log2. split.
  - unfold bind. rewrite Hrun1. exact Hrun2.
  - intros plane i m Hin Hi Hm. apply Hcur2; [exact Hin | |].
    + now apply Hcur1.
    + now rewrite Hmax1.
Qed.

(** X8: Right followed by Left brings an index back to where it was,
    except at the upper end of its range, where the first step is
    absorbed and the index ends one below (the planes move together, so
    they need not all come back); Left followed by Right behaves the
    same way at the lower end. *)
Theorem opposite_keys_round_trip app log :
  indices_in_range app ->
  (exists app' log',
     (on_key "Right" ;; on_key "Left") (app, log)
       = (Returned tt, (app', log')) /\
     forall plane i m,
       In plane planes ->
       current_indices app !! plane = Some i ->
       max_indices app !! plane = Some m ->
       current_indices app' !! plane
         = Some (if (i <? m)%Z then i else Z.max 0 (m - 1))) /\
  (exists app' log',
     (on_key "Left" ;; on_key "Right") (app, log)
       = (Returned tt, (app', log')) /\
     forall plane i m,
       In plane planes ->
       current_indices app !! plane = Some i ->
       max_indices app !! plane = Some m ->
       current_indices app' !! plane
         = Some (if (0 <? i)%Z then i else Z.min 1 m)).
Proof.
  intros Hr. split.
  - destruct (change_slice_twice 1 (-1) app log Hr)
      as (app' & log' & Hrun & Hcur).
    exists app', log'. split; [exact Hrun |].
    intros plane i m Hin Hi Hm. rewrite (Hcur plane i m Hin Hi Hm).
    destruct (Hr plane Hin) as (i' & m' & Hi' & Hm' & Hrange).
    rewrite Hi in Hi'. rewrite Hm in Hm'.
    injection Hi' as <-. injection Hm' as <-.
    f_equal. unfold bounded. repeat case_match; lia.
  - destruct (change_slice_twice (-1) 1 app log Hr)
      as (app' & log' & Hrun & Hcur).
    exists app', log'. split; [exact Hrun |].
    intros plane i m Hin Hi Hm. rewrite (Hcur plane i m Hin Hi Hm).
    destruct (Hr plane Hin) as (i' & m' & Hi' & Hm' & Hrange).
    rewrite Hi in Hi'. rewrite Hm in Hm'.
    injection Hi' as <-. injection Hm' as <-.
    f_equal. unfold bounded. repeat case_match; lia.
Qed.

Lemma change_slice_repeated d n : forall app log,
  indices_in_range app ->
  d = 1%Z \/ d = (-1)%Z ->
  exists app' log',
    for_each (repeat d n) change_slice (app, log)
      = (Returned tt, (app', log')) /\
    forall plane i m,
      In plane planes ->
      current_indices app !! plane = Some i ->
      max_indices app !! plane = Some m ->
      current_indices app' !! plane
        = Some (clamp (i + d * Z.of_nat n) 0 m).
Proof.
  induction n as [|n IH]; intros app log Hr Hd.
  - exists app, log. split; [reflexivity |].
    intros plane i m Hin Hi Hm. rewrite Hi.
    destruct (Hr plane Hin) as (i' & m' & Hi' & Hm' & Hrange).
    rewrite Hi in Hi'. rewrite Hm in Hm'.
    injection Hi' as <-. injection Hm' as <-.
    f_equal. unfold clamp. lia.
  - destruct (change_slice_spec d app log (in_range_has_planes _ Hr))
      as (app1 & log1 & Hrun1 & Hmax1 & Hcur1).
    destruct (change_slice_in_range d app log Hr)
      as (app1' & log1' & Hrun1' & _ & Hr1).
    rewrite Hrun1 in Hrun1'. injection Hrun1' as <- <-.
    destruct (IH app1 log1 Hr1 Hd) as (app' & log' & Hrun & Hcur).
    exists app', log'. split.
    + simpl. unfold bind at 1. rewrite Hrun1. exact Hrun.
    + intros plane i m Hin Hi Hm.
      rewrite (Hcur plane (bounded (i + d) m) m Hin);
        [| now apply Hcur1 | now rewrite Hmax1].
      destruct (Hr plane Hin) as (i' & m' & Hi' & Hm' & Hrange).
      rewrite Hi in Hi'. rewrite Hm in Hm'.
      injection Hi' as <-. injection Hm' as <-.
      f_equal. unfold bounded, clamp. repeat case_match; lia.
Qed.

(** X9: pressing the same arrow key [n] times moves every index by [n]
    in that direction and stops it at the end of its range: after [n]
    times Right the index is min(i + n, max index), after [n] times
    Left it is max(i - n, 0). *)
Theorem repeated_key_saturates n app log :
  indices_in_range app ->
  (exists app' log',
     for_each (repeat "Right" n) on_key (app, log)
       = (Returned tt, (app', log')) /\
     forall plane i m,
       In plane planes ->
       current_indices app !! plane = Some i ->
       max_indices app !! plane = Some m ->
       current_indices app' !! plane = Some (Z.min (i + Z.of_nat n) m)) /\
  (exists app' log',
     for_each (repeat "Left" n) on_key (app, log)
       = (Returned tt, (app', log')) /\
     forall plane i m,
       In plane planes ->
       current_indices app !! plane = Some i ->
       max_indices app !! plane = Some m ->
       current_indices app' !! plane = Some (Z.max (i - Z.of_nat n) 0)).
Proof.
  intros Hr.
  assert (Hkeys : forall keysym d,
             on_key keysym = change_slice d ->
             for_each (repeat keysym n) on_key
             = for_each (repeat d n) change_slice).
  { intros keysym d Hk. induction n as [|k IH]; [reflexivity |].
    simpl. now rewrite Hk, IH. }
  split.
  - rewrite (Hkeys "Right" 1%Z eq_refl).
    destruct (change_slice_repeated 1 n app log Hr (or_introl eq_refl))
      as (app' & log' & Hrun & Hcur).
    exists app', log'. split; [exact Hrun |].
    intros plane i m Hin Hi Hm. rewrite (Hcur plane i m Hin Hi Hm).
    destruct (Hr plane Hin) as (i' & m' & Hi' & Hm' & Hrange).
    rewrite Hi in Hi'. rewrite Hm in Hm'.
    injection Hi' as <-. injection Hm' as <-.
    f_equal. unfold clamp. lia.
  - rewrite (Hkeys "Left" (-1)%Z eq_refl).
    destruct (change_slice_repeated (-1) n app log Hr (or_intror eq_refl))
      as (app' & log' & Hrun & Hcur).
    exists app', log'. split; [exact Hrun |].
    intros plane i m Hin Hi Hm. rewrite (Hcur plane i m Hin Hi Hm).
    destruct (Hr plane Hin) as (i' & m' & Hi' & Hm' & Hrange).
    rewrite Hi in Hi'. rewrite Hm in Hm'.
    injection Hi' as <-. injection Hm' as <-.
    f_equal. unfold clamp. lia.
Qed.

End Steps.

(** ** What the views show *)

Section Views.

Context {L : Libraries}.

Ltac run :=
  unfold emit; unfold bind, ret, raise, call, try_except, modify; simpl.

(** A successful [load_dicom], with the screen it leaves. *)
Lemma load_dicom_views dicom_dir app log img log1 size0 size1 size2 :
  dicom_dir <> "" ->
  load_dicom_series dicom_dir log = (Returned (Some img), log1) ->
  GetSize img = (size0, size1, size2) ->
  exists app',
    load_dicom dicom_dir (app, log) =
    (Returned tt,
     (app',
      (view_log app' "sagittal"
         (view_log app' "coronal" (view_log app' "axial" log1)) ++
       [showinfo "Loaded" "DICOM series loaded successfully!"])%list)) /\
    image app' = Some img /\
    color_map_var app' = color_map_var app /\
    current_indices app' =
      <["sagittal" := (size0 - 1) / 2]>
        (<["coronal" := (size1 - 1) / 2]>
           (<["axial" := (size2 - 1) / 2]> (current_indices app))).
Proof.
  intros Hdir Hload Hsize. unfold load_dicom.
  apply String.eqb_neq in Hdir. rewrite Hdir. simpl.
  unfold gui at 1. unfold bind at 1. simpl. rewrite Hload.
  unfold update at 1. unfold bind at 1. unfold modify at 1. simpl.
  rewrite Hsize.
  unfold update, self, getitem, planes. simpl for_each. run.
  rewrite !lookup_insert_ne, lookup_insert_eq by done. simpl.
  rewrite lookup_insert_ne, lookup_insert_eq by done. simpl.
  rewrite lookup_insert_eq. simpl.
  rewrite !lookup_insert_ne, lookup_insert_eq by done. simpl.
  rewrite lookup_insert_ne, lookup_insert_eq by done. simpl.
  rewrite lookup_insert_eq. simpl.
  match goal with
  | |- context [update_all_views (?x, log1)] =>
      rewrite (update_all_views_run x log1)
  end.
  - unfold gui. simpl. eexists. split; [reflexivity |]. simpl. auto.
  - apply in_planes. simpl.
    match goal with
    | |- context [<[_ := ?z]> (<[_ := ?y]> (<[_ := ?x]> ?d))] =>
        destruct (lookup_planes d x y z) as (-> & -> & ->)
    end. eauto.
Qed.

(** X10: a successful load draws the three views before it reports:
    axial, coronal and sagittal in this order, each through
    [display_slice] at the midpoint of its axis and with the colour map
    that is selected, and then shows the one info dialog. *)
Theorem load_draws_midpoint_views dicom_dir app log img log1 sx sy sz :
  dicom_dir <> "" ->
  load_dicom_series dicom_dir log = (Returned (Some img), log1) ->
  GetSize img = (sx, sy, sz) ->
  let cm := color_map_var app in
  let axial :=
    snd (display_slice "axial_canvas" (Some img) "axial" ((sz - 1) / 2)
           cm log1) in
  let coronal :=
    snd (display_slice "coronal_canvas" (Some img) "coronal" ((sy - 1) / 2)
           cm axial) in
  let sagittal :=
    snd (display_slice "sagittal_canvas" (Some img) "sagittal" ((sx - 1) / 2)
           cm coronal) in
  exists app',
    load_dicom dicom_dir (app, log) =
    (Returned tt,
     (app',
      (sagittal ++
       [showinfo "Loaded" "DICOM series loaded successfully!"])%list)).
Proof.
  intros Hdir Hload Hsize. simpl.
  destruct (load_dicom_views dicom_dir app log img log1 sx sy sz
              Hdir Hload Hsize) as (app' & Hrun & Himg & Hcm & Hcur).
  exists app'. rewrite Hrun. unfold view_log. rewrite Hcur, Himg, Hcm.
  destruct (lookup_planes (current_indices app)
              ((sz - 1) / 2) ((sy - 1) / 2) ((sx - 1) / 2))
    as (-> & -> & ->).
  reflexivity.
Qed.

Lemma display_slice_array canvas img plane slicer index color_map raw log :
  indexing plane = Some slicer ->
  array_of slicer img index = Returned raw ->
  display_slice canvas (Some img) plane index color_map log =
  (Returned tt, (log ++ drawn canvas (shaded raw color_map) color_map)%list).
Proof.
  intros Hp Ha. apply display_slice_run.
  rewrite extract_slice_run, Hp. unfold array_of in Ha.
  destruct (slicer img index) as [s|e]; [| discriminate].
  now rewrite Ha.
Qed.

Lemma extract_slice_array img plane slicer index raw log :
  indexing plane = Some slicer ->
  array_of slicer img index = Returned raw ->
  extract_slice (Some img) plane index log = (Returned (Some raw), log).
Proof.
  intros Hp Ha. rewrite extract_slice_run, Hp. unfold array_of in Ha.
  destruct (slicer img index) as [s|e]; [| discriminate].
  now rewrite Ha.
Qed.

Lemma update_all_views_loaded app log img sx sy sz :
  image app = Some img ->
  GetSize img = (sx, sy, sz) ->
  serves img ->
  max_indices app !! "axial" = Some (sz - 1)%Z ->
  max_indices app !! "coronal" = Some (sy - 1)%Z ->
  max_indices app !! "sagittal" = Some (sx - 1)%Z ->
  indices_in_range app ->
  exists i_ax i_co i_sa a c s,
    current_indices app !! "axial" = Some i_ax /\
    current_indices app !! "coronal" = Some i_co /\
    current_indices app !! "sagittal" = Some i_sa /\
    array_of slice_z img i_ax = Returned a /\
    array_of slice_y img i_co = Returned c /\
    array_of slice_x img i_sa = Returned s /\
    update_all_views (app, log) =
    (Returned tt,
     (app,
      (log ++
       drawn "axial_canvas" (shaded a (color_map_var app)) (color_map_var app) ++
       drawn "coronal_canvas" (shaded c (color_map_var app)) (color_map_var app) ++
       drawn "sagittal_canvas" (shaded s (color_map_var app)) (color_map_var app)
      )%list)).
Proof.
  intros Himg Hsize Hserves Hma Hmc Hms Hr.
  unfold serves in Hserves. rewrite Hsize in Hserves.
  destruct Hserves as (Hz & Hy & Hx).
  pose proof (in_range_has_planes _ Hr) as Hp.
  apply in_planes in Hr.
  destruct Hr as ((i_ax & ma & Hia & Hma' & Hra) &
                  (i_co & mc & Hic & Hmc' & Hrc) &
                  (i_sa & ms & His & Hms' & Hrs)).
  rewrite Hma in Hma'. rewrite Hmc in Hmc'. rewrite Hms in Hms'.
  injection Hma' as <-. injection Hmc' as <-. injection Hms' as <-.
  destruct (Hz i_ax) as [a Ha]; [lia |].
  destruct (Hy i_co) as [c Hc]; [lia |].
  destruct (Hx i_sa) as [s Hs]; [lia |].
  exists i_ax, i_co, i_sa, a, c, s.
  do 6 (split; [assumption |]).
  rewrite update_all_views_run by (intros plane Hin; apply (Hp plane Hin)).
  unfold view_log. rewrite Hia, Hic, His, Himg.
  rewrite (display_slice_array _ img "axial" slice_z i_ax _ a _ eq_refl Ha).
  rewrite (display_slice_array _ img "coronal" slice_y i_co _ c _ eq_refl Hc).
  rewrite (display_slice_array _ img "sagittal" slice_x i_sa _ s _ eq_refl Hs).
  simpl. now rewrite <- !app_assoc.
Qed.

(** X11: the planes and the axes agree between [load_dicom] and
    [extract_slice].  With a volume loaded, bounds as [load_dicom] sets
    them and indices within them, libraries that serve every index
    below the size of the volume are asked for such indices only: a
    redraw shows no error dialog and renews each of the three canvases
    with the slice at the index of its plane. *)
Theorem loaded_views_show_no_error app log img sx sy sz :
  image app = Some img ->
  GetSize img = (sx, sy, sz) ->
  serves img ->
  max_indices app !! "axial" = Some (sz - 1)%Z ->
  max_indices app !! "coronal" = Some (sy - 1)%Z ->
  max_indices app !! "sagittal" = Some (sx - 1)%Z ->
  indices_in_range app ->
  exists i_ax i_co i_sa a c s,
    current_indices app !! "axial" = Some i_ax /\
    current_indices app !! "coronal" = Some i_co /\
    current_indices app !! "sagittal" = Some i_sa /\
    array_of slice_z img i_ax = Returned a /\
    array_of slice_y img i_co = Returned c /\
    array_of slice_x img i_sa = Returned s /\
    update_all_views (app, log) =
    (Returned tt,
     (app,
      (log ++
       drawn "axial_canvas" (shaded a (color_map_var app)) (color_map_var app) ++
       drawn "coronal_canvas" (shaded c (color_map_var app)) (color_map_var app) ++
       drawn "sagittal_canvas" (shaded s (color_map_var app)) (color_map_var app)
      )%list)).
Proof. apply update_all_views_loaded. Qed.

(** X12: for the colour map 'gray', and for a slice whose maximum is
    not positive (no division takes place then), [imshow] receives the
    float32 slice itself together with the name of the colour map, so
    that the colour map is applied by [imshow], once. *)
Theorem color_map_left_to_imshow canvas image plane index color_map raw
    log log1 :
  extract_slice image plane index log = (Returned (Some raw), log1) ->
  color_map = "gray" \/ gt_zero (np_max (astype_float32 raw)) = false ->
  let slice_image := astype_float32 raw in
  display_slice canvas image plane index color_map log =
  (Returned tt, (log1 ++ drawn canvas (Gray slice_image) color_map)%list) /\
  painted (Gray slice_image) color_map =
  get_cmap color_map (normalize slice_image).
Proof.
  intros H Hc. simpl. split; [| reflexivity].
  rewrite (display_slice_run _ _ _ _ _ _ _ _ H). unfold drawn.
  destruct Hc as [-> | Hflat]; [reflexivity |].
  unfold apply_color_map. rewrite Hflat. now destruct (negb _).
Qed.

End Views.

(** ** Navigating a loaded volume *)

Section Navigation.

Context {L : Libraries}.

Ltac run :=
  unfold emit; unfold bind, ret, raise, call, try_except, modify; simpl.

(** [change_slice] is its loop over the planes, then the redraw. *)
Lemma change_slice_views direction app log a c s ma mc ms :
  current_indices app !! "axial" = Some a ->
  current_indices app !! "coronal" = Some c ->
  current_indices app !! "sagittal" = Some s ->
  max_indices app !! "axial" = Some ma ->
  max_indices app !! "coronal" = Some mc ->
  max_indices app !! "sagittal" = Some ms ->
  change_slice direction (app, log) =
  update_all_views
    (set_current_indices
       (<["sagittal" := bounded (s + direction) ms]>
          (<["coronal" := bounded (c + direction) mc]>
             (<["axial" := bounded (a + direction) ma]>
                (current_indices app)))) app, log).
Proof.
  intros Ha Hc Hs Hma Hmc Hms. unfold change_slice.
  match goal with |- context [for_each planes ?b] => set (body := b) end.
  assert (Hbody : forall plane x l i m,
             current_indices x !! plane = Some i ->
             max_indices x !! plane = Some m ->
             body plane (x, l) =
             (Returned tt,
              (set_current_indices
                 (<[plane := bounded (i + direction) m]> (current_indices x)) x,
               l))).
  { intros plane x l i m Hi Hm. unfold body, self, getitem, update, bounded.
    run. rewrite Hi. simpl. rewrite lookup_insert_eq. simpl.
    destruct (i + direction <? 0)%Z; simpl.
    - now rewrite insert_insert_eq.
    - rewrite lookup_insert_eq, Hm. simpl.
      destruct (i + direction >? m)%Z; simpl; [| reflexivity].
      rewrite Hm. simpl. now rewrite insert_insert_eq. }
  clearbody body. unfold planes. simpl for_each.
  unfold bind at 1. unfold bind at 1.
  rewrite (Hbody "axial" app log a ma Ha Hma).
  unfold bind at 1.
  erewrite (Hbody "coronal" _ log c mc); cycle 1.
  { simpl. now rewrite lookup_insert_ne. }
  { simpl. assumption. }
  unfold bind at 1.
  erewrite (Hbody "sagittal" _ log s ms); cycle 1.
  { simpl. now rewrite !lookup_insert_ne. }
  { simpl. assumption. }
  reflexivity.
Qed.

Lemma views_quiet app log img :
  showing img app -> serves img -> indices_in_range app ->
  exists events,
    update_all_views (app, log) = (Returned tt, (app, (log ++ events)%list)) /\
    quiet events.
Proof.
  intros (Himg & Hb) Hs Hr.
  destruct (GetSize img) as [[sx sy] sz] eqn:Hsize.
  destruct Hb as (Hma & Hmc & Hms).
  destruct (update_all_views_loaded app log img sx sy sz
              Himg Hsize Hs Hma Hmc Hms Hr)
    as (i_ax & i_co & i_sa & a & c & s & _ & _ & _ & _ & _ & _ & Hrun).
  eexists. split; [exact Hrun | reflexivity].
Qed.

Lemma serves_plane app img plane i m :
  showing img app -> serves img -> In plane planes ->
  max_indices app !! plane = Some m -> (0 <= i <= m)%Z ->
  exists slicer raw,
    indexing plane = Some slicer /\ array_of slicer img i = Returned raw.
Proof.
  intros (Himg & Hb) Hs Hin Hm Hi. unfold serves in Hs.
  destruct (GetSize img) as [[sx sy] sz].
  destruct Hb as (Hma & Hmc & Hms). destruct Hs as (Hz & Hy & Hx).
  revert Hin Hm. unfold planes. simpl. intros [<-|[<-|[<-|[]]]] Hm.
  - rewrite Hma in Hm. injection Hm as <-.
    destruct (Hz i) as [raw Hraw]; [lia |].
    exists slice_z, raw. split; [reflexivity | exact Hraw].
  - rewrite Hmc in Hm. injection Hm as <-.
    destruct (Hy i) as [raw Hraw]; [lia |].
    exists slice_y, raw. split; [reflexivity | exact Hraw].
  - rewrite Hms in Hm. injection Hm as <-.
    destruct (Hx i) as [raw Hraw]; [lia |].
    exists slice_x, raw. split; [reflexivity | exact Hraw].
Qed.

Lemma change_slice_quiet direction app log img :
  showing img app -> serves img -> consistent app ->
  exists app' events,
    change_slice direction (app, log)
      = (Returned tt, (app', (log ++ events)%list)) /\
    quiet events /\ showing img app' /\ consistent app'.
Proof.
  intros Hshow Hs H. pose proof H as (Ha & Hc & Hs').
  destruct Ha as (a & ma & wa & Ha & Hma & _).
  destruct Hc as (c & mc & wc & Hc & Hmc & _).
  destruct Hs' as (s & ms & ws & Hs' & Hms & _).
  destruct (change_slice_run direction app log a c s ma mc ms)
    as (log1 & Hrun1); try assumption.
  destruct (consistent_change_slice direction app log H)
    as (app2 & log2 & Hrun2 & Hc2).
  rewrite Hrun1 in Hrun2. injection Hrun2 as <- <-.
  rewrite (change_slice_views direction app log a c s ma mc ms)
    by assumption.
  match goal with
  | |- context [update_all_views (?x, log)] =>
      destruct (views_quiet x log img Hshow Hs (consistent_in_range _ Hc2))
        as (events & Hrun & Hq)
  end.
  eexists. exists events. split; [exact Hrun |].
  split; [exact Hq |]. split; [exact Hshow | exact Hc2].
Qed.

(** One action: the callback returns, puts only drawing events on the
    screen and leaves the volume, the bounds and the consistency of
    indices and sliders in place for the next action. *)
Lemma navigation_step app log img action :
  showing img app -> serves img -> consistent app ->
  deliverable app action -> navigating action ->
  exists app' events,
    callback action (app, log) = (Returned tt, (app', (log ++ events)%list)) /\
    quiet events /\ showing img app' /\ consistent app'.
Proof.
  intros Hshow Hs H Hd Hnav.
  pose proof (consistent_in_range _ H) as Hr.
  destruct action as [answer|value|value|plane|plane val|keysym];
    simpl in Hd, Hnav; simpl callback.
  - destruct Hnav.
  - unfold choose_color_map, update_color_map, update. run.
    destruct (views_quiet (set_color_map_var value app) log img Hshow Hs Hr)
      as (events & Hrun & Hq).
    exists (set_color_map_var value app), events.
    split; [exact Hrun |]. split; [exact Hq |]. split; [exact Hshow | exact H].
  - unfold choose_filter, update_filter, update. run.
    destruct (views_quiet (set_filter_var value app) log img Hshow Hs Hr)
      as (events & Hrun & Hq).
    exists (set_filter_var value app), events.
    split; [exact Hrun |]. split; [exact Hq |]. split; [exact Hshow | exact H].
  - destruct (Hr plane Hd) as (i & m & Hi & Hm & Hrange).
    destruct (serves_plane app img plane i m Hshow Hs Hd Hm Hrange)
      as (slicer & raw & Hp & Ha).
    pose proof Hshow as Hshow'. destruct Hshow' as (Himg & _).
    rewrite (capture_snapshot_run plane app log i raw log Hi).
    2:{ rewrite Himg. now apply (extract_slice_array img plane slicer). }
    exists app. eexists. split; [reflexivity |].
    split; [reflexivity |]. split; assumption.
  - destruct Hd as (w & Hw & Hval).
    assert (Hc' : consistent
                    (set_current_indices
                       (<[plane := val]> (current_indices app)) app)).
    { apply consistent_insert; [exact H |]. intros m Hm.
      destruct (proj1 (consistent_planes app) H plane
                  (scroll_of_planes _ _ _ Hw))
        as (i & m' & w' & _ & Hm' & _ & Hw' & Hf & Ht).
      rewrite Hw in Hw'. injection Hw' as <-.
      rewrite Hm in Hm'. injection Hm' as <-. lia. }
    unfold on_scroll, update. run.
    match goal with
    | |- context [update_all_views (?x, log)] =>
        destruct (views_quiet x log img Hshow Hs (consistent_in_range _ Hc'))
          as (events & Hrun & Hq)
    end.
    eexists. exists events. split; [exact Hrun |].
    split; [exact Hq |]. split; [exact Hshow | exact Hc'].
  - unfold on_key.
    destruct (String.eqb keysym "Left");
      [now apply change_slice_quiet |].
    destruct (String.eqb keysym "Right");
      [now apply change_slice_quiet |].
    exists app, []. rewrite app_nil_r.
    split; [reflexivity |]. split; [reflexivity |]. split; assumption.
Qed.

Lemma quiet_app events1 events2 :
  quiet events1 -> quiet events2 -> quiet (events1 ++ events2)%list.
Proof.
  unfold quiet. intros H1 H2. rewrite forallb_app, H1, H2. reflexivity.
Qed.

(** X13: the error handler of [extract_slice] stays silent while a
    loaded volume is navigated.  With a volume loaded and libraries
    that serve every index below its size, a session of actions that
    the widgets can deliver and that does not press the load button
    puts no error dialog on the screen: every slice that a handler asks
    for lies within the volume.  The volume, the bounds and the
    consistency of indices and sliders are kept. *)
Theorem navigation_shows_no_error actions : forall app log img,
  showing img app -> serves img -> consistent app ->
  deliverable_all (app, log) actions -> Forall navigating actions ->
  exists events,
    snd (after (app, log) actions) = (log ++ events)%list /\
    quiet events /\
    showing img (fst (after (app, log) actions)) /\
    consistent (fst (after (app, log) actions)).
Proof.
  induction actions as [|action rest IH]; intros app log img Hshow Hs H Hd Hnav.
  - exists []. simpl. rewrite app_nil_r.
    split; [reflexivity |]. split; [reflexivity |]. split; assumption.
  - destruct Hd as (Hd & Hrest). cbn beta in Hd, Hrest.
    change (fst (app, log)) with app in Hd.
    inversion Hnav as [|? ? Hnav1 Hnav2]; subst.
    destruct (navigation_step app log img action Hshow Hs H Hd Hnav1)
      as (app1 & events1 & Hrun & Hq1 & Hshow1 & H1).
    rewrite after_cons. rewrite Hrun in Hrest |- *.
    change (snd (Returned tt, (app1, (log ++ events1)%list)))
      with (app1, (log ++ events1)%list) in Hrest |- *.
    destruct (IH app1 (log ++ events1)%list img Hshow1 Hs H1 Hrest Hnav2)
      as (events2 & Hlog & Hq2 & Hshow' & H').
    exists (events1 ++ events2)%list.
    split; [now rewrite Hlog, app_assoc |].
    split; [now apply quiet_app | split; assumption].
Qed.

End Navigation.

(** ** Runs on the stand-in libraries *)

(** C3 (the code departs from it): with the volume of [Toy] loaded,
    choosing 'Gaussian' redraws the three views from the slices as they
    were extracted; the blurred axial slice, given for comparison, is
    not what [imshow] receives. *)
Theorem gaussian_choice_leaves_views_unfiltered :
  choose_filter (L := Toy.lib) "Gaussian" (Toy.loaded, []) =
  (Returned tt,
   (set_filter_var "Gaussian" Toy.loaded,
    [figure_clear "axial_canvas";
     imshow "axial_canvas" (Gray (L := Toy.lib) [[0; 100; 200]; [40; 80; 120]]) "gray";
     axis_off "axial_canvas"; draw "axial_canvas";
     figure_clear "coronal_canvas";
     imshow "coronal_canvas" (Gray (L := Toy.lib) [[0; 100; 200]; [10; 20; 30]]) "gray";
     axis_off "coronal_canvas"; draw "coronal_canvas";
     figure_clear "sagittal_canvas";
     imshow "sagittal_canvas" (Gray (L := Toy.lib) [[100; 80]; [20; 0]]) "gray";
     axis_off "sagittal_canvas"; draw "sagittal_canvas"])) /\
  apply_filter (L := Toy.lib) [[0; 100; 200]; [40; 80; 120]] "Gaussian" =
  [[25; 100; 175]; [50; 80; 110]].
Proof. split; vm_compute; reflexivity. Qed.

Ltac loaded_in_range :=
  apply indices_in_range_planes;
  [exists 0%Z, 1%Z | exists 0%Z, 1%Z | exists 1%Z, 2%Z];
  repeat split; solve [vm_compute; reflexivity | lia].

Ltac ct_serves :=
  unfold serves; simpl; split; [| split]; intros k Hk;
  [ assert (Hc : k = 0%Z \/ k = 1%Z) by lia;
    destruct Hc as [-> | ->]
  | assert (Hc : k = 0%Z \/ k = 1%Z) by lia;
    destruct Hc as [-> | ->]
  | assert (Hc : k = 0%Z \/ k = 1%Z \/ k = 2%Z) by lia;
    destruct Hc as [-> | [-> | ->]] ];
  eexists; reflexivity.

Ltac loaded_consistent :=
  split; [| split];
  [ exists 0%Z, 1%Z, {| from_ := 0; to := 1 |}
  | exists 0%Z, 1%Z, {| from_ := 0; to := 1 |}
  | exists 1%Z, 2%Z, {| from_ := 0; to := 2 |} ];
  vm_compute; repeat split; discriminate.


Lemma slice_indices_stay_clamped_witness :
  (exists app' log',
     for_each [1; 1; 1; -1]%Z (change_slice (L := Toy.lib)) (Toy.loaded, [])
       = (Returned tt, (app', log')) /\
     indices_in_range app' /\
     max_indices app' = max_indices Toy.loaded) /\
  (forall d, d = 1%Z \/ d = (-1)%Z ->
     exists app' log',
       change_slice d (Toy.loaded, []) = (Returned tt, (app', log')) /\
       forall plane i m,
         In plane planes ->
         current_indices Toy.loaded !! plane = Some i ->
         max_indices Toy.loaded !! plane = Some m ->
         current_indices app' !! plane = Some (clamp (i + d) 0 m)).
Proof.
  apply (slice_indices_stay_clamped (L := Toy.lib) Toy.loaded []
           [1; 1; 1; -1]%Z).
  - loaded_in_range.
  - repeat constructor; lia.
Defined.

Lemma arrow_keys_step_all_planes_witness :
  on_key (L := Toy.lib) "Right" = change_slice 1 /\
  exists app' log',
    on_key "Right" (Toy.loaded, []) = (Returned tt, (app', log')) /\
    forall plane i m,
      In plane planes ->
      current_indices Toy.loaded !! plane = Some i ->
      max_indices Toy.loaded !! plane = Some m ->
      (0 < i < m)%Z ->
      current_indices app' !! plane = Some (i + 1)%Z.
Proof.
  apply (arrow_keys_step_all_planes (L := Toy.lib) Toy.loaded [] "Right" 1).
  - apply in_range_has_planes. loaded_in_range.
  - right. split; reflexivity.
Defined.

Lemma extract_slice_unknown_plane_witness :
  extract_slice (L := Toy.lib) (Some Toy.ct) "oblique" 0 [] =
  (Returned None,
   [showerror "Error"
      "Failed to extract slice: local variable 'slice_image' referenced before assignment"]).
Proof.
  apply (extract_slice_unknown_plane (L := Toy.lib) (Some Toy.ct) "oblique" 0 []);
    discriminate.
Defined.

Lemma color_map_applied_once_witness :
  display_slice (L := Toy.lib) "axial_canvas" (Some Toy.ct) "axial" 0 "jet" [] =
  (Returned tt,
   [figure_clear "axial_canvas";
    imshow "axial_canvas"
      (RGB (L := Toy.lib)
         [[[0; 255; 0]; [127; 128; 63]; [255; 0; 127]];
          [[51; 204; 25]; [102; 153; 51]; [153; 102; 76]]]) "jet";
    axis_off "axial_canvas"; draw "axial_canvas"]) /\
  painted (L := Toy.lib)
    (RGB (L := Toy.lib)
       [[[0; 255; 0]; [127; 128; 63]; [255; 0; 127]];
        [[51; 204; 25]; [102; 153; 51]; [153; 102; 76]]]) "jet" =
  [[[0; 255; 0]; [127; 128; 63]; [255; 0; 127]];
   [[51; 204; 25]; [102; 153; 51]; [153; 102; 76]]].
Proof.
  apply (color_map_applied_once (L := Toy.lib) "axial_canvas" (Some Toy.ct)
           "axial" 0 "jet" [[0; 100; 200]; [40; 80; 120]] [] []).
  - vm_compute. reflexivity.
  - discriminate.
  - vm_compute. reflexivity.
Defined.

Lemma slider_bounds_match_volume_witness :
  exists app' log',
    load_dicom (L := Toy.lib) "/data/ct" (init, []) = (Returned tt, (app', log')) /\
    axial_scroll app' = {| from_ := 0; to := 1 |} /\
    coronal_scroll app' = {| from_ := 0; to := 1 |} /\
    sagittal_scroll app' = {| from_ := 0; to := 2 |} /\
    max_indices app' =
      <["sagittal" := 2%Z]> (<["coronal" := 1%Z]> (<["axial" := 1%Z]> ∅)).
Proof.
  apply (slider_bounds_match_volume (L := Toy.lib) "/data/ct" init []
           Toy.ct [] 3 2 2).
  - discriminate.
  - vm_compute. reflexivity.
  - vm_compute. reflexivity.
  - repeat split.
Defined.

Lemma indices_start_at_midpoint_witness :
  exists app' log',
    load_dicom (L := Toy.lib) "/data/ct" (init, []) = (Returned tt, (app', log')) /\
    current_indices app' !! "axial" = Some 0%Z /\
    current_indices app' !! "coronal" = Some 0%Z /\
    current_indices app' !! "sagittal" = Some 1%Z.
Proof.
  apply (indices_start_at_midpoint (L := Toy.lib) "/data/ct" init []
           Toy.ct [] 3 2 2).
  - discriminate.
  - vm_compute. reflexivity.
  - vm_compute. reflexivity.
Defined.

Lemma apply_filter_identity_witness :
  apply_filter (L := Toy.lib) [[0; 100; 200]; [10; 20; 30]] "None" =
    [[0; 100; 200]; [10; 20; 30]] /\
  forall (plane : string) (app : @MPRApp Toy.lib) log index raw log1,
    filter_var app = "None" ->
    current_indices app !! plane = Some index ->
    extract_slice (image app) plane index log = (Returned (Some raw), log1) ->
    capture_snapshot plane (app, log) =
    (Returned tt,
     (app,
      (log1 ++ [delete_all (plane ++ "_snapshot_canvas");
                create_image (plane ++ "_snapshot_canvas") raw])%list)).
Proof.
  apply (apply_filter_identity (L := Toy.lib) [[0; 100; 200]; [10; 20; 30]]
           "None").
  discriminate.
Defined.

(** *** Sessions, failed loads and redraws on the stand-in libraries *)

Lemma sessions_stay_consistent_witness :
  consistent
    (fst (after (L := Toy.lib) (init, [])
            [press_load "/data/ct"; move_slider "sagittal" 2;
             press_key "Right"; press_capture "coronal";
             choose_denoise "Gaussian"; choose_map "jet"; press_load ""])).
Proof.
  apply (sessions_stay_consistent (L := Toy.lib)).
  - intros names img. simpl.
    destruct (decide (names = Toy.series)); [| discriminate].
    intros [= <-]. simpl. lia.
  - vm_compute. split; [exact I |].
    split; [exists {| from_ := 0; to := 2 |};
            split; [reflexivity | split; discriminate] |].
    split; [right; left; reflexivity |].
    split; [right; left; reflexivity |].
    split; [right; left; reflexivity |].
    split; [right; left; reflexivity |].
    split; exact I.
Defined.

Lemma unsuccessful_load_witness :
  load_dicom (L := Toy.lib) "/data/empty" (init, []) =
  (Returned tt,
   (set_image None init,
    [showerror "Error"
       "Failed to load DICOM series: No DICOM files found in the selected directory.";
     showwarning "Error" "Failed to load the DICOM series."])).
Proof.
  apply (proj2 (unsuccessful_load (L := Toy.lib) init []) "/data/empty"
           (ValueError "No DICOM files found in the selected directory."));
    [discriminate | reflexivity].
Defined.

Lemma views_without_volume_witness :
  update_all_views (L := Toy.lib) (init, []) =
  (Returned tt, (init, [no_volume_dialog; no_volume_dialog; no_volume_dialog])).
Proof.
  apply (views_without_volume (L := Toy.lib) init []); [reflexivity |].
  apply in_planes. repeat split; exists 0%Z; vm_compute; reflexivity.
Defined.

Lemma capture_without_volume_witness :
  capture_snapshot (L := Toy.lib) "coronal" (init, []) =
  (Returned tt, (init, [no_volume_dialog])).
Proof.
  apply (capture_without_volume (L := Toy.lib) "coronal" init []).
  - reflexivity.
  - right. left. reflexivity.
  - exists 0%Z. vm_compute. reflexivity.
Defined.

Lemma snapshot_is_blurred_witness :
  capture_snapshot (L := Toy.lib) "axial"
    (set_filter_var "Gaussian" Toy.loaded, []) =
  (Returned tt,
   (set_filter_var "Gaussian" Toy.loaded,
    [delete_all "axial_snapshot_canvas";
     create_image (L := Toy.lib) "axial_snapshot_canvas"
       [[25; 100; 175]; [50; 80; 110]]])).
Proof.
  apply (snapshot_is_blurred (L := Toy.lib) "axial"
           (set_filter_var "Gaussian" Toy.loaded) [] 0
           [[0; 100; 200]; [40; 80; 120]] []);
    vm_compute; reflexivity.
Defined.

Lemma opposite_keys_round_trip_witness :
  (exists app' log',
     (on_key (L := Toy.lib) "Right" ;; on_key "Left") (Toy.loaded, [])
       = (Returned tt, (app', log')) /\
     forall plane i m,
       In plane planes ->
       current_indices Toy.loaded !! plane = Some i ->
       max_indices Toy.loaded !! plane = Some m ->
       current_indices app' !! plane
         = Some (if (i <? m)%Z then i else Z.max 0 (m - 1))) /\
  (exists app' log',
     (on_key (L := Toy.lib) "Left" ;; on_key "Right") (Toy.loaded, [])
       = (Returned tt, (app', log')) /\
     forall plane i m,
       In plane planes ->
       current_indices Toy.loaded !! plane = Some i ->
       max_indices Toy.loaded !! plane = Some m ->
       current_indices app' !! plane
         = Some (if (0 <? i)%Z then i else Z.min 1 m)).
Proof.
  apply (opposite_keys_round_trip (L := Toy.lib) Toy.loaded []).
  loaded_in_range.
Defined.

Lemma repeated_key_saturates_witness :
  (exists app' log',
     for_each (repeat "Right" 5) (on_key (L := Toy.lib)) (Toy.loaded, [])
       = (Returned tt, (app', log')) /\
     forall plane i m,
       In plane planes ->
       current_indices Toy.loaded !! plane = Some i ->
       max_indices Toy.loaded !! plane = Some m ->
       current_indices app' !! plane = Some (Z.min (i + Z.of_nat 5) m)) /\
  (exists app' log',
     for_each (repeat "Left" 5) (on_key (L := Toy.lib)) (Toy.loaded, [])
       = (Returned tt, (app', log')) /\
     forall plane i m,
       In plane planes ->
       current_indices Toy.loaded !! plane = Some i ->
       max_indices Toy.loaded !! plane = Some m ->
       current_indices app' !! plane = Some (Z.max (i - Z.of_nat 5) 0)).
Proof.
  apply (repeated_key_saturates (L := Toy.lib) 5 Toy.loaded []).
  loaded_in_range.
Defined.

Lemma load_draws_midpoint_views_witness :
  exists app',
    load_dicom (L := Toy.lib) "/data/ct" (init, []) =
    (Returned tt,
     (app',
      [figure_clear "axial_canvas";
       imshow "axial_canvas"
         (Gray (L := Toy.lib) [[0; 100; 200]; [40; 80; 120]]) "gray";
       axis_off "axial_canvas"; draw "axial_canvas";
       figure_clear "coronal_canvas";
       imshow "coronal_canvas"
         (Gray (L := Toy.lib) [[0; 100; 200]; [10; 20; 30]]) "gray";
       axis_off "coronal_canvas"; draw "coronal_canvas";
       figure_clear "sagittal_canvas";
       imshow "sagittal_canvas" (Gray (L := Toy.lib) [[100; 80]; [20; 0]]) "gray";
       axis_off "sagittal_canvas"; draw "sagittal_canvas";
       showinfo "Loaded" "DICOM series loaded successfully!"])).
Proof.
  apply (load_draws_midpoint_views (L := Toy.lib) "/data/ct" init []
           Toy.ct [] 3 2 2).
  - discriminate.
  - vm_compute. reflexivity.
  - vm_compute. reflexivity.
Defined.

Lemma loaded_views_show_no_error_witness :
  exists i_ax i_co i_sa a c s,
    current_indices Toy.loaded !! "axial" = Some i_ax /\
    current_indices Toy.loaded !! "coronal" = Some i_co /\
    current_indices Toy.loaded !! "sagittal" = Some i_sa /\
    array_of (L := Toy.lib) slice_z Toy.ct i_ax = Returned a /\
    array_of (L := Toy.lib) slice_y Toy.ct i_co = Returned c /\
    array_of (L := Toy.lib) slice_x Toy.ct i_sa = Returned s /\
    update_all_views (Toy.loaded, []) =
    (Returned tt,
     (Toy.loaded,
      ([] ++
       drawn "axial_canvas" (shaded a (color_map_var Toy.loaded))
         (color_map_var Toy.loaded) ++
       drawn "coronal_canvas" (shaded c (color_map_var Toy.loaded))
         (color_map_var Toy.loaded) ++
       drawn "sagittal_canvas" (shaded s (color_map_var Toy.loaded))
         (color_map_var Toy.loaded))%list)).
Proof.
  apply (loaded_views_show_no_error (L := Toy.lib) Toy.loaded [] Toy.ct 3 2 2).
  - vm_compute. reflexivity.
  - vm_compute. reflexivity.
  - ct_serves.
  - vm_compute. reflexivity.
  - vm_compute. reflexivity.
  - vm_compute. reflexivity.
  - loaded_in_range.
Defined.

Lemma color_map_left_to_imshow_witness :
  display_slice (L := Toy.lib) "coronal_canvas" (Some Toy.ct) "coronal" 1
    "gray" [] =
  (Returned tt,
   ([] ++ drawn "coronal_canvas"
            (Gray (L := Toy.lib) [[40; 80; 120]; [0; 0; 60]]) "gray")%list) /\
  painted (Gray (L := Toy.lib) [[40; 80; 120]; [0; 0; 60]]) "gray" =
  get_cmap (Libraries := Toy.lib) "gray"
    (normalize (Libraries := Toy.lib) [[40; 80; 120]; [0; 0; 60]]).
Proof.
  apply (color_map_left_to_imshow (L := Toy.lib) "coronal_canvas"
           (Some Toy.ct) "coronal" 1 "gray" [[40; 80; 120]; [0; 0; 60]] [] []).
  - vm_compute. reflexivity.
  - left. reflexivity.
Defined.

Lemma navigation_shows_no_error_witness :
  exists events,
    snd (after (L := Toy.lib) (Toy.loaded, [])
           [move_slider "sagittal" 2; press_key "Left"; choose_map "jet";
            press_capture "axial"; choose_denoise "Gaussian";
            press_capture "coronal"])
      = ([] ++ events)%list /\
    quiet events /\
    showing (L := Toy.lib) Toy.ct
      (fst (after (Toy.loaded, [])
              [move_slider "sagittal" 2; press_key "Left"; choose_map "jet";
               press_capture "axial"; choose_denoise "Gaussian";
               press_capture "coronal"])) /\
    consistent
      (fst (after (L := Toy.lib) (Toy.loaded, [])
              [move_slider "sagittal" 2; press_key "Left"; choose_map "jet";
               press_capture "axial"; choose_denoise "Gaussian";
               press_capture "coronal"])).
Proof.
  apply (navigation_shows_no_error (L := Toy.lib)).
  - split; [vm_compute; reflexivity |]. vm_compute. repeat split.
  - ct_serves.
  - loaded_consistent.
  - vm_compute.
    split; [exists {| from_ := 0; to := 2 |};
            split; [reflexivity | split; discriminate] |].
    split; [left; reflexivity |].
    split; [right; left; reflexivity |].
    split; [left; reflexivity |].
    split; [right; left; reflexivity |].
    split; [right; left; reflexivity | exact I].
  - repeat constructor.
Defined.
